(** * treeme: directory tree listing and text bundle

    A shallow embedding of [treeme.py] and the properties of its traversal
    and filtering engine, its option normalisation and its bundle writer.

    Conventions of the embedding.
    - A Python [str] is a [string] (a sequence of bytes); [lower] and
      [strip] act on the ASCII range, where they agree with Python's
      [str.lower] and [str.strip].
    - A Python [set] of strings is a [gset string].
    - A [Path] below the scan root is the list of its components relative
      to the root ([p.relative_to(root)]); [as_posix] joins them with "/".
    - The directory tree being scanned is an inductive value: what
      [iterdir], [is_symlink], [is_file] and [is_dir] answer is read off it.
    - The two lists [lines] and [collected] that [_walk] appends to are
      threaded through as a [walk_state]. *)

From Stdlib Require Import Ascii String List Bool Arith Lia Permutation Sorted.
From stdpp Require Import gmap strings list.

Import ListNotations.
Set Warnings "-register-all".
Local Open Scope string_scope.
Local Open Scope list_scope.

(** ** Strings: the [str] methods the program calls *)

Module Str.

Definition is_upper (c : ascii) : bool :=
  Nat.leb 65 (nat_of_ascii c) && Nat.leb (nat_of_ascii c) 90.

Definition lower_char (c : ascii) : ascii :=
  if is_upper c then ascii_of_nat (nat_of_ascii c + 32) else c.

(** [s.lower()] *)
Fixpoint lower (s : string) : string :=
  match s with
  | EmptyString => EmptyString
  | String c s' => String (lower_char c) (lower s')
  end.

(** [c.isspace()] on the ASCII range: TAB, LF, VT, FF, CR, FS, GS, RS,
    US and the space. *)
Definition is_space (c : ascii) : bool :=
  let n := nat_of_ascii c in
  (Nat.leb 9 n && Nat.leb n 13) || (Nat.leb 28 n && Nat.leb n 32).

Fixpoint lstrip (s : string) : string :=
  match s with
  | EmptyString => EmptyString
  | String c s' => if is_space c then lstrip s' else s
  end.

Fixpoint rstrip (s : string) : string :=
  match s with
  | EmptyString => EmptyString
  | String c s' =>
      match rstrip s' with
      | EmptyString => if is_space c then EmptyString else String c EmptyString
      | r => String c r
      end
  end.

(** [s.strip()] *)
Definition strip (s : string) : string := rstrip (lstrip s).

(** [s.split(sep)] for a one-character separator: never the empty list. *)
Fixpoint split (sep : ascii) (s : string) : list string :=
  match s with
  | EmptyString => [EmptyString]
  | String c s' =>
      if Ascii.eqb c sep then EmptyString :: split sep s'
      else match split sep s' with
           | h :: t => String c h :: t
           | [] => [String c EmptyString]
           end
  end.

(** [s.startswith(".")] *)
Definition startswith_dot (s : string) : bool :=
  match s with
  | String c _ => Ascii.eqb c "."
  | EmptyString => false
  end.

(** The truth value of a string: [not s] holds of the empty string only. *)
Definition truthy (s : string) : bool :=
  match s with EmptyString => false | _ => true end.

(** [sep.join(parts)] *)
Fixpoint join (sep : string) (parts : list string) : string :=
  match parts with
  | [] => EmptyString
  | [p] => p
  | p :: rest => p +:+ sep +:+ join sep rest
  end.

(** [s.rfind(c)]: the index of the last occurrence of [c], [None] for
    Python's -1. *)
Fixpoint rfind (c : ascii) (s : string) : option nat :=
  match s with
  | EmptyString => None
  | String d s' =>
      match rfind c s' with
      | Some i => Some (S i)
      | None => if Ascii.eqb d c then Some 0 else None
      end
  end.

(** [c * n] for a one-character string [c] *)
Fixpoint repeat (c : ascii) (n : nat) : string :=
  match n with
  | 0 => EmptyString
  | S n' => String c (repeat c n')
  end.

(** Comparison of two strings as Python orders them: lexicographic on
    the character codes, a proper prefix first. *)
Fixpoint ltb (s t : string) : bool :=
  match s, t with
  | _, EmptyString => false
  | EmptyString, String _ _ => true
  | String a s', String b t' =>
      if Nat.ltb (nat_of_ascii a) (nat_of_ascii b) then true
      else if Nat.ltb (nat_of_ascii b) (nat_of_ascii a) then false
      else ltb s' t'
  end.

End Str.

(** ** Option normalisation *)

Definition AUTO_EXCLUDES : gset string := {[ ".git"; ".idea"; ".venv"; "venv" ]}.
Definition DEFAULT_EXTS : gset string := {[ ".txt"; ".sh"; ".py"; ".sql" ]}.

(** [parse_csv_set] *)
Definition parse_csv_set (s : string) : gset string :=
  if negb (Str.truthy s) then ∅
  else list_to_set
         (map Str.strip
              (List.filter (fun part => Str.truthy (Str.strip part)) (Str.split "," s))).

(** [normalized_exts]; [None] is Python's [None]. *)
Definition normalized_exts (csv_exts : option string) : gset string :=
  match csv_exts with
  | None => DEFAULT_EXTS
  | Some csv =>
      if negb (Str.truthy csv) then DEFAULT_EXTS
      else
        let exts : gset string :=
          list_to_set
            (map Str.strip
                 (List.filter (fun e => Str.truthy (Str.strip e)) (Str.split "," csv))) in
        set_map (fun e => if Str.startswith_dot e then e else Str.lower ("." +:+ e)) exts
  end.

(** The default of the [--exts] option in [main]. *)
Definition exts_option_default : string := ".txt,.sh,.py,.sql".

(** [main]: the value of [args.exts], given what the command line supplied. *)
Definition args_exts (supplied : option string) : string :=
  match supplied with
  | Some s => s
  | None => exts_option_default
  end.

(** [main]: [allowed_exts = {e.lower() for e in normalized_exts(args.exts)}] *)
Definition main_allowed_exts (supplied : option string) : gset string :=
  set_map Str.lower (normalized_exts (Some (args_exts supplied))).

(** [main]: [excludes = AUTO_EXCLUDES | parse_csv_set(args.exclude)] *)
Definition main_excludes (exclude : string) : gset string :=
  AUTO_EXCLUDES ∪ parse_csv_set exclude.

(** ** Paths *)

(** A path as the list of its components. *)
Definition Path : Type := list string.

(** [p.name]: the final component, empty for a path without components. *)
Definition path_name (p : Path) : string := List.last p EmptyString.

(** [p.as_posix()] of a relative path; the empty path prints as ".". *)
Definition as_posix (p : Path) : string :=
  match p with
  | [] => "."
  | _ => Str.join "/" p
  end.

(** [p.suffix]: the name from its last dot on, empty when the name has no
    dot or when its last dot is its first or its last character. *)
Definition path_suffix (name : string) : string :=
  match Str.rfind "." name with
  | Some i =>
      if Nat.ltb 0 i && Nat.ltb i (String.length name - 1)
      then String.substring i (String.length name - i) name
      else EmptyString
  | None => EmptyString
  end.

(** ** The scanned directory tree *)

(** What [dir_path.iterdir()] does inside [_walk]'s [try]: it yields the
    entries, or raises one of the two exceptions [_walk] catches. *)
Inductive iterdir_result (A : Type) : Type :=
| Entries (es : list A)
| PermissionError
| FileNotFoundError.

Arguments Entries {A} es.
Arguments PermissionError {A}.
Arguments FileNotFoundError {A}.

(** A directory entry.  [File] is any entry that is neither a directory nor
    a symbolic link; [regular] is what [is_file()] answers for it: [true]
    for a regular file, [false] for a socket, FIFO or device node.
    A symbolic link carries what it points to, if anything. *)
Inductive entry : Type :=
| Symlink (name : string) (target : option entry)
| File (name : string) (regular : bool)
| Dir (name : string) (content : iterdir_result entry).

(** [p.name] *)
Definition name (p : entry) : string :=
  match p with
  | Symlink n _ | File n _ | Dir n _ => n
  end.

(** [p.is_symlink()] *)
Definition is_symlink (p : entry) : bool :=
  match p with Symlink _ _ => true | _ => false end.

(** [p.is_dir()]; it follows symbolic links. *)
Fixpoint is_dir (p : entry) : bool :=
  match p with
  | Dir _ _ => true
  | File _ _ => false
  | Symlink _ (Some t) => is_dir t
  | Symlink _ None => false
  end.

(** [p.is_file()]; it follows symbolic links. *)
Fixpoint is_file (p : entry) : bool :=
  match p with
  | Dir _ _ => false
  | File _ regular => regular
  | Symlink _ (Some t) => is_file t
  | Symlink _ None => false
  end.

(** The nesting depth of directory listings below an entry. *)
Fixpoint depth (p : entry) : nat :=
  match p with
  | Dir _ (Entries es) => S (list_max (List.map depth es))
  | _ => 0
  end.

Definition depth_of (d : iterdir_result entry) : nat :=
  match d with
  | Entries es => S (list_max (List.map depth es))
  | _ => 0
  end.

(** ** [sorted]: a stable sort by a key, comparing keys with [<] only *)

Section SortedBy.
Context {A K : Type} (key : A -> K) (lt : K -> K -> bool).

Fixpoint insert_by (x : A) (l : list A) : list A :=
  match l with
  | [] => [x]
  | y :: l' => if lt (key y) (key x) then y :: insert_by x l' else x :: l
  end.

Fixpoint sorted (l : list A) : list A :=
  match l with
  | [] => []
  | x :: l' => insert_by x (sorted l')
  end.

(** [x] may stand before [y] in a sorted list: the key of [y] is not
    below that of [x]. *)
Definition in_order (x y : A) : Prop := lt (key y) (key x) = false.
End SortedBy.

(** The key [(p.is_file(), p.name.lower())] and the order of such tuples:
    [False < True], names decide between equal first components. *)
Definition sort_key (p : entry) : bool * string := (is_file p, Str.lower (name p)).

Definition key_lt (k1 k2 : bool * string) : bool :=
  match fst k1, fst k2 with
  | false, true => true
  | true, false => false
  | _, _ => Str.ltb (snd k1) (snd k2)
  end.

(** The order of the two-part key in words: an entry that is not a regular
    file stands before a regular file, and of two entries that both are, or
    both are not, regular files the second is not below the first by
    lowercased name. *)
Definition entry_le (a b : entry) : Prop :=
  (is_file a = false /\ is_file b = true)
  \/ (is_file a = is_file b
      /\ Str.ltb (Str.lower (name b)) (Str.lower (name a)) = false).

(** ** The traversal *)

Record walk_state : Type := WalkState {
  lines : list string;
  collected : list Path
}.

Definition lines_append (line : string) (st : walk_state) : walk_state :=
  {| lines := lines st ++ [line]; collected := collected st |}.

Definition collected_append (rel : Path) (st : walk_state) : walk_state :=
  {| lines := lines st; collected := collected st ++ [rel] |}.

(** The state before anything is appended, and the state [st] followed by
    what [out] holds. *)
Definition no_output : walk_state := {| lines := []; collected := [] |}.

Definition st_app (st out : walk_state) : walk_state :=
  {| lines := lines st ++ lines out; collected := collected st ++ collected out |}.

Definition branch_last : string := "└── ".
Definition branch_mid : string := "├── ".
Definition indent_last : string := "    ".
Definition indent_mid : string := "│   ".
Definition permission_denied_line : string := "└── [permission denied]".

Section Engine.

(** [fnmatch.fnmatch name pat], the standard library's glob matcher. *)
Variable fnmatch : string -> string -> bool.

(** The arguments of [build_tree_and_collect_files]. *)
Variables excludes ignore_globs allowed_exts include_names : gset string.
Variables tree_output bundle_output : Path.

Definition skip_names : gset string :=
  {[ path_name tree_output; path_name bundle_output ]}.

(** [matches_any_glob path patterns root], with [rel] the path relative
    to [root]. *)
Definition matches_any_glob (rel : Path) (patterns : gset string) : bool :=
  if bool_decide (patterns = ∅) then false
  else
    let name := path_name rel in
    let rel_posix := as_posix rel in
    existsb (fun pat => fnmatch name pat || fnmatch rel_posix pat) (elements patterns).

(** The first loop of [_walk]: does entry [p] of the directory at
    [dir_rel] go into [visible]? *)
Definition is_visible (dir_rel : Path) (p : entry) : bool :=
  if is_dir p then
    if bool_decide (name p ∈ excludes) then false
    else if matches_any_glob (dir_rel ++ [name p]) ignore_globs then false
    else true
  else
    if bool_decide (name p ∈ skip_names) then false
    else if matches_any_glob (dir_rel ++ [name p]) ignore_globs then false
    else true.

(** [entries]: the listing without symbolic links, sorted. *)
Definition sorted_entries (es : list entry) : list entry :=
  sorted sort_key key_lt (List.filter (fun p => negb (is_symlink p)) es).

Definition visible_entries (dir_rel : Path) (es : list entry) : list entry :=
  List.filter (is_visible dir_rel) (sorted_entries es).

(** The bundle condition on a file name. *)
Definition bundled (name : string) : bool :=
  bool_decide (Str.lower (path_suffix name) ∈ allowed_exts)
  || bool_decide (name ∈ include_names).

Section Loop.
(** The recursive call [_walk(p, prefix)] on the listing of [p]. *)
Variable walk : Path -> string -> iterdir_result entry -> walk_state -> walk_state.

(** One iteration of the second loop of [_walk].  The entries it visits
    come from [visible], which holds no symbolic link, so [p.is_dir()]
    holds of the [Dir] entries exactly and the recursive call lists the
    content of [p]. *)
Definition visit (dir_rel : Path) (prefix : string) (total idx : nat)
           (p : entry) (st : walk_state) : walk_state :=
  let is_last := Nat.eqb idx (total - 1) in
  let branch := if is_last then branch_last else branch_mid in
  let display := name p +:+ (if is_dir p then "/" else "") in
  let st := lines_append (prefix +:+ branch +:+ display) st in
  match p with
  | Dir n content =>
      walk (dir_rel ++ [n]) (prefix +:+ (if is_last then indent_last else indent_mid))
           content st
  | _ =>
      if bundled (name p) then collected_append (dir_rel ++ [name p]) st else st
  end.

(** [for idx, p in enumerate(visible)], from index [idx] on. *)
Fixpoint for_visible (dir_rel : Path) (prefix : string) (total idx : nat)
         (visible : list entry) (st : walk_state) : walk_state :=
  match visible with
  | [] => st
  | p :: rest =>
      for_visible dir_rel prefix total (S idx) rest
                  (visit dir_rel prefix total idx p st)
  end.
End Loop.

(** [_walk], by recursion on a bound [fuel] of the nesting depth. *)
Fixpoint walk_fuel (fuel : nat) (dir_rel : Path) (prefix : string)
         (d : iterdir_result entry) (st : walk_state) : walk_state :=
  match fuel with
  | 0 => st
  | S fuel' =>
      match d with
      | PermissionError => lines_append (prefix +:+ permission_denied_line) st
      | FileNotFoundError => st
      | Entries es =>
          let visible := visible_entries dir_rel es in
          for_visible (walk_fuel fuel') dir_rel prefix (List.length visible) 0 visible st
      end
  end.

(** [_walk dir_rel prefix d st] is [_walk(dir_path, prefix)] for the
    directory at [dir_rel] whose listing
    is [d], from the state [st].  The bound is the depth of the tree,
    which suffices ([_walk_Entries] below is the equation of the source). *)
Definition _walk (dir_rel : Path) (prefix : string)
           (d : iterdir_result entry) (st : walk_state) : walk_state :=
  walk_fuel (S (depth_of d)) dir_rel prefix d st.

Definition newline : string := String (ascii_of_nat 10) EmptyString.

(** The body of [build_tree_and_collect_files] up to the end of the
    traversal: the header line, then [_walk(root)].  [root_name] is
    [root.resolve().name]. *)
Definition walk_root (root_name : string) (root : iterdir_result entry) : walk_state :=
  _walk [] "" root {| lines := [root_name +:+ "/"]; collected := [] |}.

(** [build_tree_and_collect_files]: the text written to [tree_output]
    and the list returned. *)
Definition build_tree_and_collect_files (root_name : string)
           (root : iterdir_result entry) : string * list Path :=
  let st := walk_root root_name root in
  (Str.join newline (lines st), collected st).

End Engine.

(** A walker appends its output on the listing [c] to the state it is
    given. *)
Definition appends (walk : Path -> string -> iterdir_result entry -> walk_state -> walk_state)
           (c : iterdir_result entry) : Prop :=
  forall r p a b, walk r p c (st_app a b) = st_app a (walk r p c b).

(** ** The bundle writer *)

Section Bundle.

(** [abs_path.read_text(encoding="utf-8", errors="replace")] for the file
    at [root / rel]: its text, or the message of the exception raised. *)
Variable read_text : Path -> string + string.

(** ["=" * 80] *)
Definition rule : string := Str.repeat "=" 80.

(** One iteration of the loop of [write_bundle]; [out] is what has been
    written so far. *)
Definition write_file (out : string) (rel : Path) : string :=
  let out := out +:+ (newline +:+ newline) in
  let out := out +:+ (rule +:+ newline) in
  let out := out +:+ ("FILE: " +:+ as_posix rel +:+ newline) in
  let out := out +:+ (rule +:+ newline) in
  match read_text rel with
  | inr e => out +:+ ("[ERROR READING FILE: " +:+ e +:+ "]" +:+ newline)
  | inl text => out +:+ text
  end.

(** [write_bundle]: the text written to [bundle_output]. *)
Definition write_bundle (files : list Path) : string :=
  fold_left write_file files EmptyString.

(** What a block holds after its header: the text of the file, or the
    error marker when the file cannot be read. *)
Definition block_body (rel : Path) : string :=
  match read_text rel with
  | inl text => text
  | inr e => "[ERROR READING FILE: " +:+ e +:+ "]" +:+ newline
  end.

(** A per-file block as the specification describes it: a rule line, the
    [FILE:] header, a rule line, the body. *)
Definition spec_block (rel : Path) : string :=
  rule +:+ newline +:+ "FILE: " +:+ as_posix rel +:+ newline
  +:+ rule +:+ newline +:+ block_body rel.

Definition blank_line_pair : string := newline +:+ newline.

End Bundle.

(** ** Trees with entries removed *)

(** [prune hide p] removes, at every depth below [p], the entries that
    [hide] selects. *)
Fixpoint prune (hide : entry -> bool) (p : entry) : entry :=
  match p with
  | Dir n (Entries es) =>
      Dir n (Entries (List.filter (fun q => negb (hide q)) (List.map (prune hide) es)))
  | _ => p
  end.

Definition prune_dir (hide : entry -> bool) (d : iterdir_result entry)
  : iterdir_result entry :=
  match d with
  | Entries es => Entries (List.filter (fun q => negb (hide q)) (List.map (prune hide) es))
  | _ => d
  end.

(** The directories named in [excludes]. *)
Definition excluded_dir (excludes : gset string) (p : entry) : bool :=
  match p with
  | Dir n _ => bool_decide (n ∈ excludes)
  | _ => false
  end.

(** The entries other than directories and symbolic links named in [names]. *)
Definition file_named (names : gset string) (p : entry) : bool :=
  match p with
  | File n _ => bool_decide (n ∈ names)
  | _ => false
  end.

(** No entry selected by [hide] is left at any depth. *)
Inductive clean (hide : entry -> bool) : iterdir_result entry -> Prop :=
| clean_denied : clean hide PermissionError
| clean_vanished : clean hide FileNotFoundError
| clean_entries es :
    (forall p, In p es -> hide p = false) ->
    (forall n c, In (Dir n c) es -> clean hide c) ->
    clean hide (Entries es).

(** ** The directories and entries a traversal reaches *)

Section Reach.
Variable fnmatch : string -> string -> bool.
Variables excludes ignore_globs : gset string.
Variables tree_output bundle_output : Path.

Local Abbreviation visible_entries :=
  (visible_entries fnmatch excludes ignore_globs tree_output bundle_output).

(** [walked root dir_rel prefix es]: the traversal from [root] calls
    [_walk] on the directory at [dir_rel] with indentation [prefix], and
    that directory lists as [es]. *)
Inductive walked (root : iterdir_result entry) : Path -> string -> list entry -> Prop :=
| walked_root es :
    root = Entries es -> walked root [] EmptyString es
| walked_child dir_rel prefix es idx n es' :
    walked root dir_rel prefix es ->
    nth_error (visible_entries dir_rel es) idx = Some (Dir n (Entries es')) ->
    walked root (dir_rel ++ [n])
           (prefix +:+ (if Nat.eqb idx (List.length (visible_entries dir_rel es) - 1)
                        then indent_last else indent_mid))
           es'.

(** A file the traversal encounters as a visible entry: an entry other
    than a directory, at index [idx] among the visible entries of a walked
    directory. *)
Definition encountered (root : iterdir_result entry) (dir_rel : Path) (prefix : string)
           (total idx : nat) (p : entry) : Prop :=
  exists es,
    walked root dir_rel prefix es
    /\ total = List.length (visible_entries dir_rel es)
    /\ nth_error (visible_entries dir_rel es) idx = Some p
    /\ is_dir p = false.

End Reach.
(** ** The command line as [main] resolves it *)

(** An extension with its leading dot, as [normalized_exts] adds it. *)
Definition with_dot (e : string) : string :=
  if Str.startswith_dot e then e else "." +:+ e.

(** [c in s] for a character [c]. *)
Definition has_char (c : ascii) (s : string) : Prop := In c (list_ascii_of_string s).

(** An entry of a comma-separated option as it comes out of the parsing:
    not empty, without surrounding white space, without a comma. *)
Definition clean_token (e : string) : Prop :=
  e <> EmptyString /\ Str.strip e = e /\ ~ has_char "," e.

(** The values of [args] after [ap.parse_args()]. *)
Record main_args : Type := MainArgs {
  arg_exclude : string;
  arg_ignore : string;
  arg_exts : string;
  arg_include_names : string;
  arg_tree_out : Path;
  arg_bundle_out : Path
}.

Section Main.
Variable fnmatch : string -> string -> bool.
Variable read_text : Path -> string + string.

(** [main], the call of [build_tree_and_collect_files]: the text of the
    tree file and the collected list. *)
Definition main_build (args : main_args) (root_name : string)
           (root : iterdir_result entry) : string * list Path :=
  let excludes := AUTO_EXCLUDES ∪ parse_csv_set (arg_exclude args) in
  let ignore_globs := parse_csv_set (arg_ignore args) in
  let allowed_exts : gset string :=
    set_map Str.lower (normalized_exts (Some (arg_exts args))) in
  let include_names := parse_csv_set (arg_include_names args) in
  build_tree_and_collect_files fnmatch excludes ignore_globs allowed_exts include_names
    (arg_tree_out args) (arg_bundle_out args) root_name root.

(** [main] without its console lines: the texts of the two files it
    writes, the tree and the bundle. *)
Definition main (args : main_args) (root_name : string)
           (root : iterdir_result entry) : string * string :=
  let built := main_build args root_name root in
  (fst built, write_bundle read_text (snd built)).
End Main.

(** ** Trees of a file system, and entries removed by their path *)

(** The names within each listed directory are pairwise different. *)
Inductive unique_names : iterdir_result entry -> Prop :=
| unique_denied : unique_names PermissionError
| unique_vanished : unique_names FileNotFoundError
| unique_entries es :
    List.NoDup (List.map name es) ->
    (forall n c, In (Dir n c) es -> unique_names c) ->
    unique_names (Entries es).

(** [prune_at hide dir_rel p] removes, at every depth below the entry [p]
    of the directory at [dir_rel], the entries that [hide] selects by the
    directory they are in. *)
Fixpoint prune_at (hide : Path -> entry -> bool) (dir_rel : Path) (p : entry) : entry :=
  match p with
  | Dir n (Entries es) =>
      Dir n (Entries (List.filter (fun q => negb (hide (dir_rel ++ [n]) q))
                                  (List.map (prune_at hide (dir_rel ++ [n])) es)))
  | _ => p
  end.

Definition prune_dir_at (hide : Path -> entry -> bool) (dir_rel : Path)
           (d : iterdir_result entry) : iterdir_result entry :=
  match d with
  | Entries es =>
      Entries (List.filter (fun q => negb (hide dir_rel q))
                           (List.map (prune_at hide dir_rel) es))
  | _ => d
  end.

(** No entry selected by [hide] is left at any depth below [dir_rel]. *)
Inductive clean_at (hide : Path -> entry -> bool) : Path -> iterdir_result entry -> Prop :=
| clean_at_denied dir_rel : clean_at hide dir_rel PermissionError
| clean_at_vanished dir_rel : clean_at hide dir_rel FileNotFoundError
| clean_at_entries dir_rel es :
    (forall p, In p es -> hide dir_rel p = false) ->
    (forall n c, In (Dir n c) es -> clean_at hide (dir_rel ++ [n]) c) ->
    clean_at hide dir_rel (Entries es).

(** The entries, symbolic links apart, that an ignore glob matches by name
    or by path. *)
Definition ignored (fnmatch : string -> string -> bool) (ignore_globs : gset string)
           (dir_rel : Path) (p : entry) : bool :=
  negb (is_symlink p) && matches_any_glob fnmatch (dir_rel ++ [name p]) ignore_globs.


(** ** Sample inputs *)

(** [fnmatch] on patterns without wildcard characters. *)
Definition literal_fnmatch (name pat : string) : bool := String.eqb name pat.

(** A scanned root with a file per rule: an excluded directory, a
    directory that cannot be listed, one that vanished, a symbolic link to
    a directory, a socket, a file named like an excluded directory and a
    file named like the tree output. *)
Definition sample_root : iterdir_result entry :=
  Entries
    [ File "script.py" true;
      Dir "src" (Entries [File "guide.md" true; File "tree.txt" true]);
      Dir ".git" (Entries [File "config.txt" true]);
      File "Dockerfile" true;
      Symlink "link" (Some (Dir "target" (Entries [File "secret.md" true])));
      Dir "locked" PermissionError;
      Dir "gone" FileNotFoundError;
      File "venv" true;
      File "readme.md" true;
      File "sock" false ].

Definition sample_excludes : gset string := main_excludes "".
Definition sample_exts : gset string := {[ ".md" ]}.
Definition sample_names : gset string := {[ "Dockerfile"; "venv" ]}.
Definition sample_tree_output : Path := ["/"; "tmp"; "tree.txt"].
Definition sample_bundle_output : Path := ["all_texts.txt"].

Definition sample_build : iterdir_result entry -> string * list Path :=
  build_tree_and_collect_files literal_fnmatch sample_excludes ∅ sample_exts sample_names
    sample_tree_output sample_bundle_output "root".

Definition sample_walk : iterdir_result entry -> walk_state :=
  walk_root literal_fnmatch sample_excludes ∅ sample_exts sample_names
    sample_tree_output sample_bundle_output "root".

Definition sample_visible : Path -> list entry -> list entry :=
  visible_entries literal_fnmatch sample_excludes ∅ sample_tree_output sample_bundle_output.

(** The entries of [sample_root]. *)
Definition sample_entries : list entry :=
  match sample_root with
  | Entries es => es
  | _ => []
  end.

(** What [read_text] gives for the sample: one unreadable file. *)
Definition sample_read_text (rel : Path) : string + string :=
  match rel with
  | ["src"; "guide.md"] => inl "# guide"
  | ["readme.md"] => inl "# readme"
  | _ => inr "[Errno 13] Permission denied"
  end.

(** Options of a run on the sample, and the sample after a run that wrote
    its two outputs into the root. *)
Definition sample_args : main_args :=
  {| arg_exclude := "node_modules";
     arg_ignore := EmptyString;
     arg_exts := ".md";
     arg_include_names := "Dockerfile,venv";
     arg_tree_out := ["tree.txt"];
     arg_bundle_out := ["all_texts.txt"] |}.

Definition sample_root_after : iterdir_result entry :=
  Entries (File "all_texts.txt" true :: sample_entries ++ [File "tree.txt" true]).



(** * Properties *)

(** ** Strings *)

Module StrFacts.
Import Str.

Lemma lower_char_idem c : lower_char (lower_char c) = lower_char c.
Proof. destruct c as [[] [] [] [] [] [] [] []]; reflexivity. Qed.

Lemma lower_idem s : lower (lower s) = lower s.
Proof.
  induction s as [|c s IH]; simpl; [reflexivity|].
  now rewrite lower_char_idem, IH.
Qed.

Lemma lower_startswith_dot s :
  startswith_dot s = true -> startswith_dot (lower s) = true.
Proof.
  destruct s as [|c s]; simpl; [discriminate|].
  intros H. apply Ascii.eqb_eq in H. subst c. reflexivity.
Qed.

Lemma append_empty_r s : s +:+ EmptyString = s.
Proof.
  induction s as [|c s IH]; [reflexivity|].
  change (String c (s +:+ EmptyString) = String c s). now rewrite IH.
Qed.

Lemma append_assoc s t u : (s +:+ t) +:+ u = s +:+ (t +:+ u).
Proof.
  induction s as [|c s IH]; [reflexivity|].
  change (String c ((s +:+ t) +:+ u) = String c (s +:+ (t +:+ u))). now rewrite IH.
Qed.

Lemma append_empty_l s : EmptyString +:+ s = s.
Proof. reflexivity. Qed.

Lemma ltb_irrefl s : ltb s s = false.
Proof.
  induction s as [|c s IH]; simpl; [reflexivity|].
  now rewrite Nat.ltb_irrefl.
Qed.

Lemma nat_of_ascii_inj a b : nat_of_ascii a = nat_of_ascii b -> a = b.
Proof.
  intros H. rewrite <- (ascii_nat_embedding a), <- (ascii_nat_embedding b).
  now rewrite H.
Qed.

(** Two strings neither of which is below the other are equal. *)
Lemma ltb_connex s t : ltb s t = false -> ltb t s = false -> s = t.
Proof.
  revert t. induction s as [|a s IH]; intros [|b t]; simpl; try discriminate; auto.
  destruct (Nat.ltb_spec (nat_of_ascii a) (nat_of_ascii b)); [discriminate|].
  destruct (Nat.ltb_spec (nat_of_ascii b) (nat_of_ascii a)); [discriminate|].
  intros H1 H2. f_equal; [apply nat_of_ascii_inj; lia | now apply IH].
Qed.

Lemma ltb_trans s t u : ltb s t = true -> ltb t u = true -> ltb s u = true.
Proof.
  revert t u. induction s as [|a s IH]; intros [|b t] [|c u]; simpl; try discriminate; auto.
  destruct (Nat.ltb_spec (nat_of_ascii a) (nat_of_ascii b)),
           (Nat.ltb_spec (nat_of_ascii b) (nat_of_ascii c)),
           (Nat.ltb_spec (nat_of_ascii a) (nat_of_ascii c)),
           (Nat.ltb_spec (nat_of_ascii b) (nat_of_ascii a)),
           (Nat.ltb_spec (nat_of_ascii c) (nat_of_ascii b)),
           (Nat.ltb_spec (nat_of_ascii c) (nat_of_ascii a));
    try discriminate; try lia; auto.
  apply IH.
Qed.

Lemma ltb_asym s t : ltb s t = true -> ltb t s = false.
Proof.
  intros H. destruct (ltb t s) eqn:E; [|reflexivity].
  pose proof (ltb_trans _ _ _ H E) as F. now rewrite ltb_irrefl in F.
Qed.

End StrFacts.

(** ** The resolved extension set (C5) *)

Lemma DEFAULT_EXTS_normal e :
  e ∈ DEFAULT_EXTS -> Str.lower e = e /\ Str.startswith_dot e = true.
Proof.
  unfold DEFAULT_EXTS. rewrite !elem_of_union, !elem_of_singleton.
  intros [[[-> | ->] | ->] | ->]; split; reflexivity.
Qed.

Lemma normalized_exts_dot csv e :
  e ∈ normalized_exts csv -> Str.startswith_dot e = true.
Proof.
  destruct csv as [csv|]; simpl; [|apply DEFAULT_EXTS_normal].
  destruct (Str.truthy csv); simpl; [|apply DEFAULT_EXTS_normal].
  rewrite elem_of_map. intros (x & -> & _).
  destruct (Str.startswith_dot x) eqn:E; [exact E | reflexivity].
Qed.

(** C5.  Every entry of the allowed-extensions set that [main] resolves from
    the [--exts] option is lowercase (unchanged by [lower]) and starts with a
    dot, whatever list was supplied; when none is supplied, and also when the
    empty string is, the set is the default {.txt, .sh, .py, .sql}. *)
Theorem main_allowed_exts_normalised :
  (forall supplied e,
      e ∈ main_allowed_exts supplied ->
      Str.lower e = e /\ Str.startswith_dot e = true)
  /\ main_allowed_exts None = DEFAULT_EXTS
  /\ main_allowed_exts (Some EmptyString) = DEFAULT_EXTS
  /\ normalized_exts None = DEFAULT_EXTS.
Proof.
  split; [|repeat split; vm_compute; reflexivity].
  intros supplied e. unfold main_allowed_exts. rewrite elem_of_map.
  intros (x & -> & Hx). split.
  - apply StrFacts.lower_idem.
  - apply StrFacts.lower_startswith_dot. eapply normalized_exts_dot, Hx.
Qed.

Lemma main_allowed_exts_normalised_witness :
  ".py" ∈ main_allowed_exts (Some " PY, .Md ,,x.Y")
  /\ Str.lower ".py" = ".py" /\ Str.startswith_dot ".py" = true.
Proof.
  assert (H : ".py" ∈ main_allowed_exts (Some " PY, .Md ,,x.Y")) by (vm_compute; tauto).
  split; [exact H|].
  exact (proj1 main_allowed_exts_normalised (Some " PY, .Md ,,x.Y") ".py" H).
Defined.

(** ** The stable sort *)

Section SortedByFacts.
Context {A K : Type} (key : A -> K) (lt : K -> K -> bool).

(** [lt] is a strict weak order on the keys. *)
Hypothesis lt_asym : forall a b, lt a b = true -> lt b a = false.
Hypothesis lt_negtrans : forall a b c, lt a c = true -> lt a b = true \/ lt b c = true.

Local Abbreviation in_order := (in_order key lt).

Lemma in_order_trans x y z : in_order x y -> in_order y z -> in_order x z.
Proof.
  unfold in_order. intros Hxy Hyz.
  destruct (lt (key z) (key x)) eqn:E; [|reflexivity].
  destruct (lt_negtrans _ (key y) _ E); congruence.
Qed.

Lemma insert_by_perm x l : Permutation (x :: l) (insert_by key lt x l).
Proof.
  induction l as [|y l IH]; simpl; [reflexivity|].
  destruct (lt (key y) (key x)); [|reflexivity].
  rewrite perm_swap. now apply perm_skip.
Qed.

Lemma sorted_perm l : Permutation l (sorted key lt l).
Proof.
  induction l as [|x l IH]; simpl; [reflexivity|].
  rewrite <- insert_by_perm. now apply perm_skip.
Qed.

Lemma sorted_In x l : In x (sorted key lt l) <-> In x l.
Proof.
  split; apply Permutation_in; [symmetry|]; apply sorted_perm.
Qed.

Lemma insert_by_sorted x l :
  StronglySorted in_order l -> StronglySorted in_order (insert_by key lt x l).
Proof.
  induction 1 as [|y l Hl IH Hy]; simpl.
  - constructor; [constructor | constructor].
  - destruct (lt (key y) (key x)) eqn:E.
    + constructor; [exact IH|].
      rewrite List.Forall_forall in *. intros z Hz.
      apply (Permutation_in _ (Permutation_sym (insert_by_perm x l))) in Hz.
      destruct Hz as [<- | Hz]; [now apply lt_asym | now apply Hy].
    + constructor; [now constructor|].
      constructor; [exact E|].
      rewrite List.Forall_forall in *. intros z Hz.
      eapply in_order_trans; [exact E | now apply Hy].
Qed.

Lemma sorted_sorted l : StronglySorted in_order (sorted key lt l).
Proof.
  induction l; simpl; [constructor | now apply insert_by_sorted].
Qed.

(** The sort is stable: it commutes with the removal of entries. *)
Lemma insert_by_filter f x l :
  StronglySorted in_order l ->
  List.filter f (insert_by key lt x l)
  = if f x then insert_by key lt x (List.filter f l) else List.filter f l.
Proof.
  induction 1 as [|y l Hl IH Hy]; simpl.
  - destruct (f x); reflexivity.
  - destruct (lt (key y) (key x)) eqn:E; simpl.
    + rewrite IH. destruct (f y), (f x); simpl; rewrite ?E; reflexivity.
    + destruct (f x) eqn:Fx; [|reflexivity].
      destruct (f y); simpl; [now rewrite E|].
      f_equal. clear IH.
      induction l as [|z l IHl]; simpl; [reflexivity|].
      apply StronglySorted_inv in Hl. destruct Hl as [Hl Hz].
      apply Forall_inv in Hy as Hyz. apply Forall_inv_tail in Hy.
      destruct (f z); simpl.
      * assert (Hxz : in_order x z) by (eapply in_order_trans; eauto).
        unfold in_order in Hxz. now rewrite Hxz.
      * rewrite <- IHl by assumption. reflexivity.
Qed.

Lemma sorted_filter f l :
  sorted key lt (List.filter f l) = List.filter f (sorted key lt l).
Proof.
  induction l as [|x l IH]; simpl; [reflexivity|].
  rewrite insert_by_filter by apply sorted_sorted.
  destruct (f x); simpl; now rewrite IH.
Qed.

Lemma lt_irrefl a : lt a a = false.
Proof.
  destruct (lt a a) eqn:E; [|reflexivity]. now rewrite (lt_asym _ _ E) in E.
Qed.

(** Entries that all have the same key stay as they are. *)
Lemma sorted_equal_keys l :
  (forall a b, In a l -> In b l -> key a = key b) -> sorted key lt l = l.
Proof.
  induction l as [|x l IH]; intros H; [reflexivity|].
  simpl. rewrite IH by (intros a b Ha Hb; apply H; now right).
  destruct l as [|y l]; [reflexivity|]. simpl.
  rewrite (H y x) by (simpl; tauto). now rewrite lt_irrefl.
Qed.

(** Stability: the entries that share a key come out of the sort in the
    order in which they went in. *)
Lemma sorted_stable f l :
  (forall a b, f a = true -> f b = true -> key a = key b) ->
  List.filter f (sorted key lt l) = List.filter f l.
Proof.
  intros H. rewrite <- sorted_filter. apply sorted_equal_keys.
  intros a b Ha Hb. apply filter_In in Ha as [_ Ha]. apply filter_In in Hb as [_ Hb].
  now apply H.
Qed.

(** Keys that are all different make the order strict, and the sorted
    list independent of the order of the input. *)
Hypothesis lt_connex : forall a b, lt a b = false -> lt b a = false -> a = b.

Lemma sorted_head_unique x l y l' :
  StronglySorted in_order (x :: l) -> StronglySorted in_order (y :: l') ->
  Permutation (x :: l) (y :: l') -> key x = key y.
Proof.
  intros Hx Hy HP.
  apply StronglySorted_inv in Hx as [_ Hx]. apply StronglySorted_inv in Hy as [_ Hy].
  rewrite List.Forall_forall in Hx, Hy.
  assert (Hyx : In y (x :: l)) by (eapply Permutation_in; [symmetry; exact HP | now left]).
  assert (Hxy : In x (y :: l')) by (eapply Permutation_in; [exact HP | now left]).
  destruct Hyx as [-> | Hyx]; [reflexivity|].
  destruct Hxy as [-> | Hxy]; [reflexivity|].
  apply lt_connex; [apply (Hy _ Hxy) | apply (Hx _ Hyx)].
Qed.

Lemma sorted_unique l l' :
  List.NoDup (List.map key l) ->
  StronglySorted in_order l -> StronglySorted in_order l' ->
  Permutation l l' -> l = l'.
Proof.
  revert l'. induction l as [|x l IH]; intros l' Hnd Hl Hl' HP.
  - apply Permutation_nil in HP. now subst.
  - destruct l' as [|y l']; [apply Permutation_sym, Permutation_nil in HP; discriminate|].
    pose proof (sorted_head_unique _ _ _ _ Hl Hl' HP) as Hk.
    assert (Hxy : x = y).
    { assert (Hy : In y (x :: l)) by (eapply Permutation_in; [symmetry; exact HP | now left]).
      destruct Hy as [Hy | Hy]; [exact Hy|].
      simpl in Hnd. apply List.NoDup_cons_iff in Hnd. destruct Hnd as [Hnd _].
      exfalso. apply Hnd. rewrite Hk. now apply in_map. }
    subst y. f_equal.
    apply IH.
    + simpl in Hnd. now apply List.NoDup_cons_iff in Hnd.
    + now apply StronglySorted_inv in Hl.
    + now apply StronglySorted_inv in Hl'.
    + now apply Permutation_cons_inv in HP.
Qed.

Lemma sorted_order_independent l l' :
  List.NoDup (List.map key l) -> Permutation l l' ->
  sorted key lt l = sorted key lt l'.
Proof.
  intros Hnd HP. apply sorted_unique.
  - eapply Permutation_NoDup; [|exact Hnd].
    apply Permutation_map, sorted_perm.
  - apply sorted_sorted.
  - apply sorted_sorted.
  - rewrite <- (sorted_perm l), <- (sorted_perm l'). exact HP.
Qed.

End SortedByFacts.

Lemma sorted_map {A B K : Type} (key : A -> K) (key' : B -> K) (lt : K -> K -> bool)
      (g : A -> B) (l : list A) :
  (forall x, key' (g x) = key x) ->
  sorted key' lt (List.map g l) = List.map g (sorted key lt l).
Proof.
  intros Hk. induction l as [|x l IH]; simpl; [reflexivity|].
  rewrite IH. generalize (sorted key lt l). intros s.
  induction s as [|y s IHs]; simpl; [reflexivity|].
  rewrite !Hk. destruct (lt (key y) (key x)); simpl; [now rewrite IHs | reflexivity].
Qed.

Lemma StronglySorted_drop_app {A : Type} (R : A -> A -> Prop) l1 l2 :
  StronglySorted R (l1 ++ l2) -> StronglySorted R l2.
Proof.
  induction l1 as [|x l1 IH]; simpl; [auto|].
  intros H. apply StronglySorted_inv in H as [H _]. auto.
Qed.

(** Filters. *)

Lemma filter_comm {A : Type} (f g : A -> bool) l :
  List.filter f (List.filter g l) = List.filter g (List.filter f l).
Proof.
  induction l as [|x l IH]; simpl; [reflexivity|].
  destruct (f x) eqn:Ef, (g x) eqn:Eg; simpl; rewrite ?Ef, ?Eg, IH; reflexivity.
Qed.

Lemma filter_absorb {A : Type} (f g : A -> bool) l :
  (forall x, In x l -> f x = true -> g x = true) ->
  List.filter f (List.filter g l) = List.filter f l.
Proof.
  induction l as [|x l IH]; intros H; simpl; [reflexivity|].
  rewrite <- IH by (intros; apply H; [now right | assumption]).
  destruct (g x) eqn:Eg; simpl; [reflexivity|].
  destruct (f x) eqn:Ef; [|reflexivity].
  rewrite (H x) in Eg; [discriminate | now left | assumption].
Qed.

Lemma filter_map_pres {A B : Type} (f : B -> bool) (f' : A -> bool) (g : A -> B) l :
  (forall x, f (g x) = f' x) ->
  List.filter f (List.map g l) = List.map g (List.filter f' l).
Proof.
  intros H. induction l as [|x l IH]; simpl; [reflexivity|].
  rewrite H, IH. now destruct (f' x).
Qed.

(** The order of the sort keys. *)

Lemma key_lt_asym a b : key_lt a b = true -> key_lt b a = false.
Proof.
  destruct a as [[] s], b as [[] t]; unfold key_lt; simpl;
    try discriminate; try reflexivity; apply StrFacts.ltb_asym.
Qed.

Lemma ltb_negtrans s t u :
  Str.ltb s u = true -> Str.ltb s t = true \/ Str.ltb t u = true.
Proof.
  intros H. destruct (Str.ltb s t) eqn:Est; [now left|].
  destruct (Str.ltb t u) eqn:Etu; [now right|]. exfalso.
  destruct (Str.ltb t s) eqn:Ets.
  - rewrite (StrFacts.ltb_trans _ _ _ Ets H) in Etu. discriminate.
  - rewrite (StrFacts.ltb_connex _ _ Est Ets) in H. congruence.
Qed.

Lemma key_lt_negtrans a b c :
  key_lt a c = true -> key_lt a b = true \/ key_lt b c = true.
Proof.
  destruct a as [[] s], b as [[] t], c as [[] u]; unfold key_lt; simpl;
    try discriminate; auto; apply ltb_negtrans.
Qed.

Lemma key_lt_connex a b : key_lt a b = false -> key_lt b a = false -> a = b.
Proof.
  destruct a as [[] s], b as [[] t]; unfold key_lt; simpl;
    try discriminate; intros H1 H2; f_equal; now apply StrFacts.ltb_connex.
Qed.

(** ** The traversal: its defining equations *)

Lemma depth_In n c es : In (Dir n c) es -> depth_of c < depth_of (Entries es).
Proof.
  intros Hin. simpl.
  assert (H : depth (Dir n c) <= list_max (List.map depth es)).
  { pose proof (proj1 (list_max_le (List.map depth es) _) (Nat.le_refl _)) as HF.
    rewrite List.Forall_forall in HF. apply HF. now apply in_map. }
  destruct c; simpl in *; lia.
Qed.

(** Induction on the directory tree. *)
Lemma dir_ind (P : iterdir_result entry -> Prop) :
  P PermissionError ->
  P FileNotFoundError ->
  (forall es, (forall n c, In (Dir n c) es -> P c) -> P (Entries es)) ->
  forall d, P d.
Proof.
  intros HP HF HE d.
  remember (depth_of d) as k eqn:Hk.
  revert d Hk. induction k as [k IH] using lt_wf_ind. intros d ->.
  destruct d as [es| |]; auto.
  apply HE. intros n c Hin. eapply IH; [|reflexivity]. eapply depth_In, Hin.
Qed.

Ltac unfold_visible := unfold visible_entries, sorted_entries.
Ltac unfold_walk := unfold _walk.
Ltac unfold_visit := unfold visit.
Ltac unfold_bundle := unfold write_bundle, write_file, spec_block, block_body, blank_line_pair.
Ltac unfold_is_visible := unfold is_visible.
Ltac unfold_is_visible_in H := unfold is_visible in H.
Ltac unfold_build := unfold build_tree_and_collect_files, walk_root.
Ltac unfold_walk_head := unfold _walk at 1; cbn [walk_fuel]; cbv zeta.

Section EngineFacts.

Variable fnmatch : string -> string -> bool.
Variables excludes ignore_globs allowed_exts include_names : gset string.
Variables tree_output bundle_output : Path.

Local Abbreviation visible_entries :=
  (visible_entries fnmatch excludes ignore_globs tree_output bundle_output).
Local Abbreviation is_visible :=
  (is_visible fnmatch excludes ignore_globs tree_output bundle_output).
Local Abbreviation visit := (visit allowed_exts include_names).
Local Abbreviation for_visible := (for_visible allowed_exts include_names).
Local Abbreviation walk_fuel :=
  (walk_fuel fnmatch excludes ignore_globs allowed_exts include_names
             tree_output bundle_output).
Local Abbreviation _walk :=
  (_walk fnmatch excludes ignore_globs allowed_exts include_names
         tree_output bundle_output).

Lemma visible_entries_In dir_rel es p :
  In p (visible_entries dir_rel es) ->
  In p es /\ is_symlink p = false /\ is_visible dir_rel p = true.
Proof.
  unfold_visible.
  rewrite filter_In, sorted_In, filter_In, negb_true_iff. tauto.
Qed.

Lemma In_visible_entries dir_rel es p :
  In p es -> is_symlink p = false -> is_visible dir_rel p = true ->
  In p (visible_entries dir_rel es).
Proof.
  unfold_visible.
  rewrite filter_In, sorted_In, filter_In, negb_true_iff. tauto.
Qed.

(** The loop depends on the recursive call only at the directories it
    visits. *)
Lemma for_visible_ext walk1 walk2 dir_rel prefix total idx visible st :
  (forall n c, In (Dir n c) visible ->
               forall r p s, walk1 r p c s = walk2 r p c s) ->
  for_visible walk1 dir_rel prefix total idx visible st
  = for_visible walk2 dir_rel prefix total idx visible st.
Proof.
  revert idx st. induction visible as [|p rest IH]; intros idx st H; simpl; [reflexivity|].
  rewrite IH by (intros; eapply H; right; eassumption).
  f_equal. destruct p; simpl; try reflexivity.
  eapply H. now left.
Qed.

Lemma for_visible_app walk dir_rel prefix total idx v1 v2 st :
  for_visible walk dir_rel prefix total idx (v1 ++ v2) st
  = for_visible walk dir_rel prefix total (idx + List.length v1) v2
                (for_visible walk dir_rel prefix total idx v1 st).
Proof.
  revert idx st. induction v1 as [|p v1 IH]; intros idx st; simpl.
  - now rewrite Nat.add_0_r.
  - rewrite IH. f_equal. lia.
Qed.

(** Any bound above the depth of the tree gives the same traversal. *)
Lemma walk_fuel_enough f1 f2 d dir_rel prefix st :
  depth_of d < f1 -> depth_of d < f2 ->
  walk_fuel f1 dir_rel prefix d st = walk_fuel f2 dir_rel prefix d st.
Proof.
  revert f2 d dir_rel prefix st.
  induction f1 as [|f1 IH]; intros f2 d dir_rel prefix st H1 H2; [lia|].
  destruct f2 as [|f2]; [lia|].
  destruct d as [es| |]; simpl; try reflexivity.
  apply for_visible_ext. intros n c Hin r p s.
  apply visible_entries_In in Hin as [Hin _].
  apply depth_In in Hin. simpl in *. apply IH; lia.
Qed.

(** The equations of [_walk] in the source. *)
Lemma _walk_PermissionError dir_rel prefix st :
  _walk dir_rel prefix PermissionError st
  = lines_append (prefix +:+ permission_denied_line) st.
Proof. reflexivity. Qed.

Lemma _walk_FileNotFoundError dir_rel prefix st :
  _walk dir_rel prefix FileNotFoundError st = st.
Proof. reflexivity. Qed.

Lemma _walk_Entries dir_rel prefix es st :
  _walk dir_rel prefix (Entries es) st
  = let visible := visible_entries dir_rel es in
    for_visible _walk dir_rel prefix (List.length visible) 0 visible st.
Proof.
  unfold_walk_head.
  apply for_visible_ext. intros n c Hin r p s.
  apply visible_entries_In in Hin as [Hin _].
  apply depth_In in Hin. unfold_walk. apply walk_fuel_enough; lia.
Qed.

(** *** The traversal only appends *)

Lemma st_app_no_output st : st_app st no_output = st.
Proof. destruct st. unfold st_app. simpl. now rewrite !app_nil_r. Qed.

Lemma st_app_assoc a b c : st_app (st_app a b) c = st_app a (st_app b c).
Proof. unfold st_app. simpl. now rewrite !app_assoc. Qed.

Lemma lines_append_st_app line a b :
  lines_append line (st_app a b) = st_app a (lines_append line b).
Proof. unfold lines_append, st_app. simpl. now rewrite app_assoc. Qed.

Lemma collected_append_st_app rel a b :
  collected_append rel (st_app a b) = st_app a (collected_append rel b).
Proof. unfold collected_append, st_app. simpl. now rewrite app_assoc. Qed.

Lemma visit_st_app walk dir_rel prefix total idx p a b :
  (forall n c, p = Dir n c -> appends walk c) ->
  visit walk dir_rel prefix total idx p (st_app a b)
  = st_app a (visit walk dir_rel prefix total idx p b).
Proof.
  intros H. unfold_visit.
  rewrite lines_append_st_app.
  destruct p as [n t|n k|n c]; simpl.
  - destruct (bundled _ _ _); [apply collected_append_st_app | reflexivity].
  - destruct (bundled _ _ _); [apply collected_append_st_app | reflexivity].
  - now apply (H n c).
Qed.

Lemma for_visible_st_app walk dir_rel prefix total idx visible a b :
  (forall n c, In (Dir n c) visible -> appends walk c) ->
  for_visible walk dir_rel prefix total idx visible (st_app a b)
  = st_app a (for_visible walk dir_rel prefix total idx visible b).
Proof.
  revert idx b. induction visible as [|p rest IH]; intros idx b H; simpl; [reflexivity|].
  rewrite visit_st_app by (intros n c ->; apply (H n c); now left).
  apply IH. intros n c Hin. apply (H n c). now right.
Qed.

Lemma _walk_appends d : appends _walk d.
Proof.
  induction d as [| |es IH] using dir_ind; intros r p a b.
  - rewrite !_walk_PermissionError. apply lines_append_st_app.
  - reflexivity.
  - rewrite !_walk_Entries. cbv zeta. apply for_visible_st_app.
    intros n c Hin. apply (IH n c). now apply visible_entries_In in Hin.
Qed.

(** The state after a traversal is the state before it followed by what
    the traversal puts out. *)
Lemma _walk_frame dir_rel prefix d st :
  _walk dir_rel prefix d st = st_app st (_walk dir_rel prefix d no_output).
Proof.
  rewrite <- (st_app_no_output st) at 1. apply _walk_appends.
Qed.

Lemma visit_frame dir_rel prefix total idx p st :
  visit _walk dir_rel prefix total idx p st
  = st_app st (visit _walk dir_rel prefix total idx p no_output).
Proof.
  rewrite <- (st_app_no_output st) at 1. apply visit_st_app.
  intros n c _. apply _walk_appends.
Qed.

Lemma for_visible_frame dir_rel prefix total idx visible st :
  for_visible _walk dir_rel prefix total idx visible st
  = st_app st (for_visible _walk dir_rel prefix total idx visible no_output).
Proof.
  rewrite <- (st_app_no_output st) at 1. apply for_visible_st_app.
  intros n c _. apply _walk_appends.
Qed.

(** *** Removing entries that are never visible *)

Section Prune.
Variable hide : entry -> bool.
Hypothesis hide_invisible :
  forall p, hide p = true -> is_symlink p = false ->
            forall dir_rel, is_visible dir_rel p = false.
Hypothesis hide_prune : forall p, hide (prune hide p) = hide p.

Lemma prune_Dir n c : prune hide (Dir n c) = Dir n (prune_dir hide c).
Proof. destruct c; reflexivity. Qed.

Lemma prune_is_symlink p : is_symlink (prune hide p) = is_symlink p.
Proof. destruct p as [| |n []]; reflexivity. Qed.

Lemma prune_sort_key p : sort_key (prune hide p) = sort_key p.
Proof. destruct p as [| |n []]; reflexivity. Qed.

Lemma prune_is_visible dir_rel p :
  is_visible dir_rel (prune hide p) = is_visible dir_rel p.
Proof. destruct p as [| |n []]; reflexivity. Qed.

Lemma visible_entries_prune dir_rel es :
  visible_entries dir_rel
    (List.filter (fun q => negb (hide q)) (List.map (prune hide) es))
  = List.map (prune hide) (visible_entries dir_rel es).
Proof.
  unfold_visible.
  rewrite filter_comm.
  rewrite (sorted_filter _ _ key_lt_asym key_lt_negtrans).
  rewrite (filter_map_pres _ (fun p => negb (is_symlink p)))
    by (intros; now rewrite prune_is_symlink).
  rewrite (sorted_map sort_key) by apply prune_sort_key.
  rewrite filter_absorb.
  - apply filter_map_pres. intros; apply prune_is_visible.
  - intros q Hq Hv. apply in_map_iff in Hq as (p & <- & Hp).
    apply sorted_In, filter_In in Hp as [_ Hp]. apply negb_true_iff in Hp.
    rewrite hide_prune. rewrite prune_is_visible in Hv.
    destruct (hide p) eqn:E; [|reflexivity].
    rewrite (hide_invisible p E Hp) in Hv. discriminate.
Qed.

Lemma for_visible_prune dir_rel prefix total idx visible st :
  (forall n c, In (Dir n c) visible ->
               forall r p s, _walk r p (prune_dir hide c) s = _walk r p c s) ->
  for_visible _walk dir_rel prefix total idx (List.map (prune hide) visible) st
  = for_visible _walk dir_rel prefix total idx visible st.
Proof.
  revert idx st. induction visible as [|p rest IH]; intros idx st H; simpl; [reflexivity|].
  rewrite IH by (intros; eapply H; right; eassumption).
  f_equal. destruct p as [n t|n k|n c]; try reflexivity.
  rewrite prune_Dir. unfold_visit. simpl. eapply H. now left.
Qed.

(** The traversal of a tree and of the tree without the hidden
    entries are the same. *)
Lemma _walk_prune d dir_rel prefix st :
  _walk dir_rel prefix (prune_dir hide d) st = _walk dir_rel prefix d st.
Proof.
  revert dir_rel prefix st.
  induction d as [| |es IH] using dir_ind; intros dir_rel prefix st; try reflexivity.
  simpl. rewrite !_walk_Entries. cbv zeta.
  rewrite visible_entries_prune, length_map.
  apply for_visible_prune. intros n c Hin. apply (IH n c).
  now apply visible_entries_In in Hin.
Qed.

Lemma prune_dir_clean d : clean hide (prune_dir hide d).
Proof.
  induction d as [| |es IH] using dir_ind; simpl; try constructor.
  - intros p Hp. apply filter_In in Hp as [_ Hp]. now apply negb_true_iff in Hp.
  - intros n c Hin. apply filter_In in Hin as [Hin _].
    apply in_map_iff in Hin as (q & Hq & Hin).
    destruct q as [| |n' c']; try (simpl in Hq; discriminate).
    rewrite prune_Dir in Hq. injection Hq as -> <-. eapply IH, Hin.
Qed.
End Prune.

(** *** Where the output of an entry ends up *)

(** What visiting a file appends. *)
Lemma visit_file dir_rel prefix total idx p st :
  is_dir p = false -> is_symlink p = false ->
  visit _walk dir_rel prefix total idx p st
  = st_app st
      {| lines := [prefix +:+ (if Nat.eqb idx (total - 1) then branch_last else branch_mid)
                          +:+ name p];
         collected := if bundled allowed_exts include_names (name p)
                      then [dir_rel ++ [name p]] else [] |}.
Proof.
  destruct p as [n t|n k|n c]; try discriminate. intros _ _.
  unfold_visit. unfold st_app, lines_append, collected_append. cbn.
  rewrite StrFacts.append_empty_r. destruct (bundled _ _ n); cbn; now rewrite ?app_nil_r.
Qed.

(** The output of each visible entry is a segment of the output of its
    directory. *)
Lemma visit_in_walk dir_rel prefix es idx p st :
  nth_error (visible_entries dir_rel es) idx = Some p ->
  exists before after,
    _walk dir_rel prefix (Entries es) st
    = st_app (st_app before
                     (visit _walk dir_rel prefix
                            (List.length (visible_entries dir_rel es)) idx p no_output))
             after.
Proof.
  intros Hnth. rewrite _walk_Entries. cbv zeta.
  set (total := List.length (visible_entries dir_rel es)).
  destruct (nth_error_split _ _ Hnth) as (v1 & v2 & Hv & Hlen).
  rewrite Hv, for_visible_app. simpl. rewrite Hlen.
  eexists. eexists.
  rewrite for_visible_frame, visit_frame. reflexivity.
Qed.

(** What visiting a directory appends: its line, then the output of the
    traversal below it. *)
Lemma visit_dir dir_rel prefix total idx n c st :
  visit _walk dir_rel prefix total idx (Dir n c) st
  = st_app st
      (st_app {| lines := [prefix +:+ (if Nat.eqb idx (total - 1)
                                       then branch_last else branch_mid)
                                  +:+ n +:+ "/"];
                 collected := [] |}
              (_walk (dir_rel ++ [n])
                     (prefix +:+ (if Nat.eqb idx (total - 1)
                                  then indent_last else indent_mid))
                     c no_output)).
Proof.
  unfold_visit. cbn [is_dir name]. rewrite _walk_frame.
  rewrite <- st_app_assoc. f_equal.
  unfold lines_append, st_app. simpl. now rewrite app_nil_r.
Qed.

Lemma walked_in_root root_name root dir_rel prefix es :
  walked fnmatch excludes ignore_globs tree_output bundle_output root dir_rel prefix es ->
  exists before after,
    walk_root fnmatch excludes ignore_globs allowed_exts include_names
              tree_output bundle_output root_name root
    = st_app (st_app before (_walk dir_rel prefix (Entries es) no_output)) after.
Proof.
  induction 1 as [es ->|dir_rel prefix es idx n es' Hw (B & A & IH) Hnth].
  - unfold_build. rewrite _walk_frame. eexists. exists no_output.
    now rewrite st_app_no_output.
  - destruct (visit_in_walk dir_rel prefix es idx _ no_output Hnth) as (B' & A' & E).
    rewrite IH, E, visit_dir.
    exists (st_app B (st_app B' (st_app no_output
              {| lines := [prefix +:+ (if Nat.eqb idx (List.length (visible_entries dir_rel es) - 1)
                                       then branch_last else branch_mid) +:+ n +:+ "/"];
                 collected := [] |}))).
    exists (st_app A' A).
    now rewrite !st_app_assoc.
Qed.

(** An encountered file puts its line into the tree, and its path into
    the collected list when it satisfies the bundle condition. *)
Lemma encountered_in_root root_name root dir_rel prefix total idx p :
  encountered fnmatch excludes ignore_globs tree_output bundle_output
              root dir_rel prefix total idx p ->
  exists before after,
    walk_root fnmatch excludes ignore_globs allowed_exts include_names
              tree_output bundle_output root_name root
    = st_app (st_app before
        {| lines := [prefix +:+ (if Nat.eqb idx (total - 1) then branch_last else branch_mid)
                            +:+ name p];
           collected := if bundled allowed_exts include_names (name p)
                        then [dir_rel ++ [name p]] else [] |})
        after.
Proof.
  intros (es & Hw & -> & Hnth & Hdir).
  destruct (walked_in_root root_name _ _ _ _ Hw) as (B & A & E).
  destruct (visit_in_walk dir_rel prefix es idx _ no_output Hnth) as (B' & A' & E').
  assert (Hsym : is_symlink p = false).
  { apply nth_error_In, visible_entries_In in Hnth. tauto. }
  rewrite E, E', (visit_file _ _ _ _ _ _ Hdir Hsym).
  exists (st_app B (st_app B' no_output)), (st_app A' A).
  now rewrite !st_app_assoc.
Qed.

(** *** The shape of the collected paths *)

Lemma for_visible_collected dir_rel prefix total idx visible st q :
  In q (collected (for_visible _walk dir_rel prefix total idx visible st)) ->
  In q (collected st)
  \/ exists p i, In p visible
                 /\ In q (collected (visit _walk dir_rel prefix total i p no_output)).
Proof.
  revert idx st. induction visible as [|p rest IH]; intros idx st; simpl; [now left|].
  intros H. apply IH in H as [H | (p' & i & Hp' & H)].
  - rewrite visit_frame in H. simpl in H. apply in_app_or in H as [H | H]; [now left|].
    right. exists p, idx. split; [now left | exact H].
  - right. exists p', i. split; [now right | exact H].
Qed.

(** Every collected path leads through visible directories, none of them
    named in [excludes], to a name that satisfies the bundle condition. *)
Lemma collected_shape d dir_rel prefix q :
  In q (collected (_walk dir_rel prefix d no_output)) ->
  exists dirs n,
    q = dir_rel ++ dirs ++ [n]
    /\ (forall c, In c dirs -> c ∉ excludes)
    /\ (n ∉ skip_names tree_output bundle_output)
    /\ bundled allowed_exts include_names n = true.
Proof.
  revert dir_rel prefix.
  induction d as [| |es IH] using dir_ind; intros dir_rel prefix; try (intros []).
  rewrite _walk_Entries. cbv zeta. intros H.
  apply for_visible_collected in H as [[] | (p & i & Hp & H)].
  apply visible_entries_In in Hp as (Hin & Hsym & Hvis).
  destruct p as [n t|n k|n c]; [discriminate| |].
  - rewrite visit_file in H by reflexivity. simpl in H.
    destruct (bundled _ _ n) eqn:E; [|destruct H].
    destruct H as [<- | []]. exists [], n. split; [reflexivity|].
    split; [intros c []|]. split; [|exact E].
    unfold_is_visible_in Hvis. simpl in Hvis.
    destruct (bool_decide (n ∈ skip_names tree_output bundle_output)) eqn:E';
      [discriminate|].
    now apply bool_decide_eq_false in E'.
  - rewrite visit_dir in H. simpl in H.
    apply (IH n c Hin) in H as (dirs & m & -> & Hdirs & Hm).
    exists (n :: dirs), m. split; [now rewrite <- !app_assoc|].
    split; [|exact Hm].
    intros c' [<- | Hc]; [|now apply Hdirs].
    unfold_is_visible_in Hvis. simpl in Hvis.
    destruct (bool_decide (n ∈ excludes)) eqn:E; [discriminate|].
    now apply bool_decide_eq_false in E.
Qed.

Lemma bundled_spec n :
  bundled allowed_exts include_names n = true
  <-> Str.lower (path_suffix n) ∈ allowed_exts \/ n ∈ include_names.
Proof.
  unfold bundled. rewrite orb_true_iff, !bool_decide_eq_true. reflexivity.
Qed.

(** C1.  A visible file that the traversal encounters (an entry that is
    not a directory, among the visible entries of a directory the
    traversal walks) has its root-relative path in the collected list if
    and only if its extension, lowercased, is in the allowed-extensions
    set or its name is in the always-include set. *)
Theorem collected_iff_bundled root_name root dir_rel prefix total idx p :
  encountered fnmatch excludes ignore_globs tree_output bundle_output
              root dir_rel prefix total idx p ->
  In (dir_rel ++ [name p])
     (snd (build_tree_and_collect_files fnmatch excludes ignore_globs allowed_exts
             include_names tree_output bundle_output root_name root))
  <-> (Str.lower (path_suffix (name p)) ∈ allowed_exts \/ name p ∈ include_names).
Proof.
  intros Henc. rewrite <- bundled_spec. split.
  - unfold_build. cbn [snd]. rewrite _walk_frame. simpl. intros H.
    apply collected_shape in H as (dirs & n & E & _ & _ & Hn).
    simpl in E. apply app_inj_tail in E as [_ ->]. exact Hn.
  - intros Hb.
    destruct (encountered_in_root root_name _ _ _ _ _ _ Henc) as (B & A & E).
    unfold build_tree_and_collect_files. cbn [snd]. rewrite E, Hb. simpl.
    apply in_or_app. left. apply in_or_app. right. now left.
Qed.

(** *** Entries that never show *)

Lemma build_prune hide root_name root :
  (forall p, hide p = true -> is_symlink p = false ->
             forall dir_rel, is_visible dir_rel p = false) ->
  (forall p, hide (prune hide p) = hide p) ->
  build_tree_and_collect_files fnmatch excludes ignore_globs allowed_exts include_names
    tree_output bundle_output root_name (prune_dir hide root)
  = build_tree_and_collect_files fnmatch excludes ignore_globs allowed_exts include_names
      tree_output bundle_output root_name root.
Proof.
  intros H1 H2. unfold_build. now rewrite (_walk_prune hide H1 H2).
Qed.

Lemma excluded_dir_invisible p :
  excluded_dir excludes p = true -> is_symlink p = false ->
  forall dir_rel, is_visible dir_rel p = false.
Proof.
  destruct p as [n t|n k|n c]; try discriminate. simpl. intros H _ dir_rel.
  unfold_is_visible. simpl. now rewrite H.
Qed.

Lemma excluded_dir_prune p :
  excluded_dir excludes (prune (excluded_dir excludes) p) = excluded_dir excludes p.
Proof. destruct p as [| |n []]; reflexivity. Qed.

(** C2.  A directory whose name is in the excluded set is dropped before
    any recursion, with everything below it: the tree text and the
    collected list are those of the tree from which every such directory
    has been removed at every depth (so nothing beneath one shows in the
    tree or is bundled, whatever its extension), and no collected path
    leads through a directory named in the excluded set. *)
Theorem excluded_subtree_never_visited root_name root :
  build_tree_and_collect_files fnmatch excludes ignore_globs allowed_exts include_names
    tree_output bundle_output root_name (prune_dir (excluded_dir excludes) root)
  = build_tree_and_collect_files fnmatch excludes ignore_globs allowed_exts include_names
      tree_output bundle_output root_name root
  /\ clean (excluded_dir excludes) (prune_dir (excluded_dir excludes) root)
  /\ (forall q c,
         In q (snd (build_tree_and_collect_files fnmatch excludes ignore_globs
                      allowed_exts include_names tree_output bundle_output
                      root_name root)) ->
         In c (removelast q) -> c ∉ excludes).
Proof.
  split; [|split].
  - apply build_prune; [apply excluded_dir_invisible | apply excluded_dir_prune].
  - apply prune_dir_clean.
  - intros q c. unfold_build. cbn [snd]. rewrite _walk_frame. simpl. intros H.
    apply collected_shape in H as (dirs & n & -> & Hdirs & _).
    simpl. rewrite removelast_last. apply Hdirs.
Qed.

Lemma is_symlink_prune p : is_symlink (prune is_symlink p) = is_symlink p.
Proof. destruct p as [| |n []]; reflexivity. Qed.

(** C8.  A symbolic link is dropped from the listing before anything
    else looks at it: the tree text and the collected list are those of
    the tree from which every symbolic link, with whatever it points to,
    has been removed at every depth.  So no link shows in the tree, none
    is descended into, and none contributes a file to the bundle list. *)
Theorem symlinks_never_shown root_name root :
  build_tree_and_collect_files fnmatch excludes ignore_globs allowed_exts include_names
    tree_output bundle_output root_name (prune_dir is_symlink root)
  = build_tree_and_collect_files fnmatch excludes ignore_globs allowed_exts include_names
      tree_output bundle_output root_name root
  /\ clean is_symlink (prune_dir is_symlink root).
Proof.
  split.
  - apply build_prune; [congruence | apply is_symlink_prune].
  - apply prune_dir_clean.
Qed.

Lemma file_named_invisible p :
  file_named (skip_names tree_output bundle_output) p = true ->
  is_symlink p = false ->
  forall dir_rel, is_visible dir_rel p = false.
Proof.
  destruct p as [n t|n k|n c]; try discriminate. simpl. intros H _ dir_rel.
  unfold_is_visible. simpl. now rewrite H.
Qed.

Lemma file_named_prune names p :
  file_named names (prune (file_named names) p) = file_named names p.
Proof. destruct p as [| |n []]; reflexivity. Qed.

(** C9.  The output files are skipped by name alone.  Whatever the two
    output paths are, inside the scanned root or not, every entry other
    than a directory whose name is the last component of [tree_output] or
    of [bundle_output] is dropped at every depth: the tree text and the
    collected list are those of the tree without these entries, and no
    collected path ends in either name. *)
Theorem output_names_skipped_everywhere root_name root :
  skip_names tree_output bundle_output
  = {[ path_name tree_output; path_name bundle_output ]}
  /\ build_tree_and_collect_files fnmatch excludes ignore_globs allowed_exts include_names
       tree_output bundle_output root_name
       (prune_dir (file_named (skip_names tree_output bundle_output)) root)
     = build_tree_and_collect_files fnmatch excludes ignore_globs allowed_exts
         include_names tree_output bundle_output root_name root
  /\ clean (file_named (skip_names tree_output bundle_output))
           (prune_dir (file_named (skip_names tree_output bundle_output)) root)
  /\ (forall q,
         In q (snd (build_tree_and_collect_files fnmatch excludes ignore_globs
                      allowed_exts include_names tree_output bundle_output
                      root_name root)) ->
         path_name q <> path_name tree_output /\ path_name q <> path_name bundle_output).
Proof.
  split; [reflexivity|]. split; [|split].
  - apply build_prune; [apply file_named_invisible | apply file_named_prune].
  - apply prune_dir_clean.
  - intros q. unfold_build. cbn [snd]. rewrite _walk_frame. simpl. intros H.
    apply collected_shape in H as (dirs & n & -> & _ & Hn & _).
    unfold path_name. simpl. rewrite last_last.
    unfold skip_names in Hn. set_solver.
Qed.

(** C10.  The excluded names apply to directories only.  An entry that is
    not a directory, listed in a directory the traversal walks, whose name
    is in the excluded set, matches no ignore glob and is not an output
    name, is a visible entry: its line is in the tree, and its path is in
    the collected list whenever it satisfies the bundle condition. *)
Theorem excluded_name_spares_files root_name root dir_rel prefix es n regular :
  walked fnmatch excludes ignore_globs tree_output bundle_output root dir_rel prefix es ->
  In (File n regular) es ->
  n ∈ excludes ->
  matches_any_glob fnmatch (dir_rel ++ [n]) ignore_globs = false ->
  n ∉ skip_names tree_output bundle_output ->
  let st := walk_root fnmatch excludes ignore_globs allowed_exts include_names
                      tree_output bundle_output root_name root in
  let total := List.length (visible_entries dir_rel es) in
  exists idx,
    nth_error (visible_entries dir_rel es) idx = Some (File n regular)
    /\ In (prefix +:+ (if Nat.eqb idx (total - 1) then branch_last else branch_mid) +:+ n)
          (lines st)
    /\ (Str.lower (path_suffix n) ∈ allowed_exts \/ n ∈ include_names ->
        In (dir_rel ++ [n]) (collected st)).
Proof.
  intros Hw Hin Hex Hglob Hskip st total.
  assert (Hvis : In (File n regular) (visible_entries dir_rel es)).
  { apply In_visible_entries; [exact Hin | reflexivity|].
    unfold_is_visible. simpl. rewrite Hglob.
    now rewrite (bool_decide_eq_false_2 _ Hskip). }
  apply In_nth_error in Hvis as [idx Hnth]. exists idx. split; [exact Hnth|].
  assert (Henc : encountered fnmatch excludes ignore_globs tree_output bundle_output
                   root dir_rel prefix total idx (File n regular)).
  { exists es. repeat split; assumption. }
  destruct (encountered_in_root root_name _ _ _ _ _ _ Henc) as (B & A & E).
  subst st. rewrite E. simpl. split.
  - apply in_or_app. left. apply in_or_app. right. now left.
  - intros Hb. apply bundled_spec in Hb. rewrite Hb.
    apply in_or_app. left. apply in_or_app. right. now left.
Qed.

(** *** One directory, entry by entry *)

Lemma walk_split dir_rel prefix es v1 p v2 st :
  visible_entries dir_rel es = v1 ++ p :: v2 ->
  let total := List.length (visible_entries dir_rel es) in
  _walk dir_rel prefix (Entries es) st
  = st_app (st_app (for_visible _walk dir_rel prefix total 0 v1 st)
                   (visit _walk dir_rel prefix total (List.length v1) p no_output))
           (for_visible _walk dir_rel prefix total (S (List.length v1)) v2 no_output).
Proof.
  intros Hv total. rewrite _walk_Entries. cbv zeta. fold total.
  rewrite Hv, for_visible_app. simpl.
  now rewrite for_visible_frame, visit_frame.
Qed.

(** C7.  A directory whose listing is denied gets exactly one sentinel
    line and nothing else: [_walk] on it appends the line
    "[permission denied]" with the closing branch and collects nothing.
    As the entry at position [length v1] of its parent it contributes its
    own line and, indented below it, the sentinel; the entries before it
    and the entries after it are visited as usual, so the traversal
    goes on to its end. *)
Theorem permission_denied_sentinel :
  (forall dir_rel prefix st,
      _walk dir_rel prefix PermissionError st
      = {| lines := lines st ++ [prefix +:+ "└── [permission denied]"];
           collected := collected st |})
  /\ (forall dir_rel prefix es v1 n v2 st,
         visible_entries dir_rel es = v1 ++ Dir n PermissionError :: v2 ->
         let total := List.length (visible_entries dir_rel es) in
         let is_last := Nat.eqb (List.length v1) (total - 1) in
         _walk dir_rel prefix (Entries es) st
         = st_app
             (st_app (for_visible _walk dir_rel prefix total 0 v1 st)
                {| lines :=
                     [prefix +:+ (if is_last then branch_last else branch_mid)
                             +:+ n +:+ "/";
                      (prefix +:+ (if is_last then indent_last else indent_mid))
                        +:+ "└── [permission denied]"];
                   collected := [] |})
             (for_visible _walk dir_rel prefix total (S (List.length v1)) v2 no_output)).
Proof.
  split; [reflexivity|].
  intros dir_rel prefix es v1 n v2 st Hv total is_last.
  rewrite (walk_split _ _ _ _ _ _ _ Hv), visit_dir. reflexivity.
Qed.

(** C3, as the code has it.  [_walk] on a directory that has vanished
    appends nothing: no sentinel, no line of an entry, no collected file.
    The line of the directory itself is appended by the loop of the parent
    before the visit, and stays: as the entry at position [length v1] the
    vanished directory contributes exactly its own line, as an empty
    directory does. *)
Theorem vanished_directory_keeps_its_line :
  (forall dir_rel prefix st,
      _walk dir_rel prefix FileNotFoundError st = st
      /\ _walk dir_rel prefix FileNotFoundError st = _walk dir_rel prefix (Entries []) st)
  /\ (forall dir_rel prefix es v1 n v2 st,
         visible_entries dir_rel es = v1 ++ Dir n FileNotFoundError :: v2 ->
         let total := List.length (visible_entries dir_rel es) in
         let is_last := Nat.eqb (List.length v1) (total - 1) in
         _walk dir_rel prefix (Entries es) st
         = st_app
             (st_app (for_visible _walk dir_rel prefix total 0 v1 st)
                {| lines :=
                     [prefix +:+ (if is_last then branch_last else branch_mid)
                             +:+ n +:+ "/"];
                   collected := [] |})
             (for_visible _walk dir_rel prefix total (S (List.length v1)) v2 no_output)).
Proof.
  split; [split; reflexivity|].
  intros dir_rel prefix es v1 n v2 st Hv total is_last.
  rewrite (walk_split _ _ _ _ _ _ _ Hv), visit_dir. reflexivity.
Qed.

(** *** The order of the entries *)

Lemma for_visible_fold dir_rel prefix total idx visible st :
  for_visible _walk dir_rel prefix total idx visible st
  = fold_left st_app
      (imap (fun i p => visit _walk dir_rel prefix total (idx + i) p no_output) visible)
      st.
Proof.
  revert idx st. induction visible as [|p rest IH]; intros idx st; [reflexivity|].
  cbn [Nat.add]. simpl. rewrite IH, Nat.add_0_r, <- visit_frame.
  f_equal. apply imap_ext. intros i x _. simpl. f_equal. lia.
Qed.

Lemma in_order_entry_le a b : in_order sort_key key_lt a b -> entry_le a b.
Proof.
  unfold in_order, entry_le, key_lt, sort_key. simpl.
  destruct (is_file a), (is_file b); try discriminate; auto.
Qed.

Lemma sorted_entries_sorted es : StronglySorted entry_le (sorted_entries es).
Proof.
  unfold sorted_entries.
  pose proof (sorted_sorted sort_key key_lt key_lt_asym key_lt_negtrans
                (List.filter (fun p => negb (is_symlink p)) es)) as H.
  induction H as [|a l Hl IH Ha]; constructor; [exact IH|].
  eapply List.Forall_impl; [|exact Ha]. apply in_order_entry_le.
Qed.

(** C6, as the code has it.  The entries of a directory other than
    symbolic links are sorted, stably, by the key (is a regular file,
    lowercased name): the result is a permutation of them in which every
    entry stands before the later ones by [entry_le], so a directory is
    never after a regular file and names of a kind ascend by lowercased
    name.  When no two entries have the same key the result does not
    depend on the order in which the directory was listed.  Each directory
    is sorted on its own when [_walk] lists it, and the output of the
    directory is the output of its visible entries in sorted order: this
    fixes the order of the tree lines and of the collected list.  The sort
    is stable: the entries that share a key (names that differ only in
    case) stand in the sorted list in the order in which the directory
    listed them. *)
Theorem entries_sorted_by_key :
  (forall es,
      Permutation (List.filter (fun p => negb (is_symlink p)) es) (sorted_entries es)
      /\ StronglySorted entry_le (sorted_entries es))
  /\ (forall es l1 a l2 b,
         sorted_entries es = l1 ++ a :: l2 -> In b l2 ->
         is_file a = true -> is_file b = true /\ is_dir b = false)
  /\ (forall es es',
         Permutation es es' ->
         List.NoDup (List.map sort_key (List.filter (fun p => negb (is_symlink p)) es)) ->
         sorted_entries es = sorted_entries es')
  /\ (forall dir_rel prefix es st,
         let visible := List.filter (is_visible dir_rel) (sorted_entries es) in
         let total := List.length visible in
         _walk dir_rel prefix (Entries es) st
         = fold_left st_app
             (imap (fun idx p => visit _walk dir_rel prefix total idx p no_output) visible)
             st)
  /\ (forall es (same : entry -> bool),
         (forall a b, same a = true -> same b = true -> sort_key a = sort_key b) ->
         List.filter same (sorted_entries es)
         = List.filter same (List.filter (fun p => negb (is_symlink p)) es)).
Proof.
  split; [|split; [|split; [|split]]].
  - intros es. split; [apply sorted_perm | apply sorted_entries_sorted].
  - intros es l1 a l2 b Hs Hb Ha.
    pose proof (sorted_entries_sorted es) as H. rewrite Hs in H.
    apply StronglySorted_drop_app, StronglySorted_inv in H as [_ H].
    rewrite List.Forall_forall in H. specialize (H b Hb).
    assert (Hfb : is_file b = true).
    { destruct H as [[H _] | [H _]]; congruence. }
    split; [exact Hfb|]. destruct b as [m t|m k|m c]; simpl in *; [| |discriminate].
    + assert (Hin : In (Symlink m t) (sorted_entries es))
        by (rewrite Hs; apply in_or_app; right; now right).
      unfold sorted_entries in Hin. apply sorted_In, filter_In in Hin as [_ Hin].
      discriminate.
    + reflexivity.
  - intros es es' HP Hnd. unfold sorted_entries.
    apply (sorted_order_independent _ _ key_lt_asym key_lt_negtrans key_lt_connex);
      [exact Hnd|].
    clear Hnd. induction HP; simpl.
    + constructor.
    + destruct (negb (is_symlink x)); [now constructor | assumption].
    + destruct (negb (is_symlink x)), (negb (is_symlink y));
        (reflexivity || apply perm_swap).
    + etransitivity; eassumption.
  - intros dir_rel prefix es st visible total.
    rewrite _walk_Entries. cbv zeta. apply for_visible_fold.
  - intros es same Hsame. unfold sorted_entries.
    now apply (sorted_stable _ _ key_lt_asym key_lt_negtrans).
Qed.

End EngineFacts.

(** ** The bundle *)

Section BundleFacts.

Variable read_text : Path -> string + string.

Local Abbreviation write_file := (write_file read_text).
Local Abbreviation write_bundle := (write_bundle read_text).
Local Abbreviation spec_block := (spec_block read_text).
Local Abbreviation block_body := (block_body read_text).

Lemma write_file_block out rel :
  write_file out rel = out +:+ blank_line_pair +:+ spec_block rel.
Proof.
  unfold_bundle. destruct (read_text rel); now rewrite !StrFacts.append_assoc.
Qed.

Lemma fold_write_file files out :
  fold_left write_file files out
  = out +:+ fold_right (fun rel rest => blank_line_pair +:+ spec_block rel +:+ rest)
                       EmptyString files.
Proof.
  revert out. induction files as [|f files IH]; intros out; simpl.
  - now rewrite StrFacts.append_empty_r.
  - now rewrite IH, write_file_block, !StrFacts.append_assoc.
Qed.

Lemma join_blocks f files :
  fold_right (fun rel rest => blank_line_pair +:+ spec_block rel +:+ rest)
             EmptyString (f :: files)
  = blank_line_pair +:+ Str.join blank_line_pair (List.map spec_block (f :: files)).
Proof.
  revert f. induction files as [|g files IH]; intros f.
  - simpl. now rewrite StrFacts.append_empty_r.
  - cbn [fold_right List.map Str.join] in *. now rewrite IH.
Qed.

(** C4.  The bundle is the blocks of the files in list order, each
    preceded by a pair of newlines, so that two consecutive blocks are
    separated by that pair.  A block is a rule line of 80 characters "=",
    the line "FILE: " with the components of the relative path joined by
    "/", a second rule line, then the text of the file (the error marker
    when the file cannot be read). *)
Theorem bundle_is_blocks :
  write_bundle [] = EmptyString
  /\ (forall f files,
         write_bundle (f :: files)
         = blank_line_pair
             +:+ Str.join blank_line_pair (List.map spec_block (f :: files)))
  /\ blank_line_pair = newline +:+ newline
  /\ (String.length rule = 80 /\ rule = Str.repeat "=" 80)
  /\ (forall rel,
         spec_block rel
         = rule +:+ newline +:+ "FILE: " +:+ as_posix rel +:+ newline
           +:+ rule +:+ newline +:+ block_body rel)
  /\ (forall c rel, as_posix (c :: rel) = Str.join "/" (c :: rel))
  /\ (forall rel text, read_text rel = inl text -> block_body rel = text).
Proof.
  repeat split.
  - intros f files. unfold_bundle. rewrite fold_write_file, StrFacts.append_empty_l.
    apply join_blocks.
  - intros rel text H. unfold_bundle. now rewrite H.
Qed.

End BundleFacts.

(** * The properties at the sample inputs *)

Ltac by_computation := vm_compute; reflexivity.

Ltac decide_by_computation :=
  first [ apply (bool_decide_unpack _); vm_compute; exact I
        | apply (bool_decide_eq_false_1 _); by_computation ].

Example sample_build_result :
  sample_build sample_root
  = (Str.join newline
       [ "root/";
         "├── gone/";
         "├── locked/";
         "│   └── [permission denied]";
         "├── sock";
         "├── src/";
         "│   └── guide.md";
         "├── Dockerfile";
         "├── readme.md";
         "├── script.py";
         "└── venv" ],
     [ ["src"; "guide.md"]; ["Dockerfile"]; ["readme.md"]; ["venv"] ]).
Proof. by_computation. Qed.

(** The ordering scenario: subdirectory "B", file "a.txt", subdirectory "A". *)
Example ordering_scenario :
  sorted_entries [Dir "B" (Entries []); File "a.txt" true; Dir "A" (Entries [])]
  = [Dir "A" (Entries []); Dir "B" (Entries []); File "a.txt" true].
Proof. by_computation. Qed.

(** The default configuration on src/main.py, .git/config and
    node_modules/x.js. *)
Example default_scenario :
  build_tree_and_collect_files literal_fnmatch (main_excludes EmptyString) ∅
    (main_allowed_exts None) ∅ ["tree.txt"] ["all_texts.txt"] "root"
    (Entries [ Dir "src" (Entries [File "main.py" true]);
               Dir ".git" (Entries [File "config" true]);
               Dir "node_modules" (Entries [File "x.js" true]) ])
  = (Str.join newline
       [ "root/";
         "├── node_modules/";
         "│   └── x.js";
         "└── src/";
         "    └── main.py" ],
     [ ["src"; "main.py"] ]).
Proof. by_computation. Qed.

Lemma sample_walked_root :
  walked literal_fnmatch sample_excludes ∅ sample_tree_output sample_bundle_output
         sample_root [] EmptyString sample_entries.
Proof. apply walked_root. reflexivity. Defined.

Lemma sample_walked_src :
  walked literal_fnmatch sample_excludes ∅ sample_tree_output sample_bundle_output
         sample_root ["src"] "│   " [File "guide.md" true; File "tree.txt" true].
Proof.
  exact (walked_child literal_fnmatch sample_excludes ∅ sample_tree_output
           sample_bundle_output sample_root [] EmptyString sample_entries 3 "src"
           [File "guide.md" true; File "tree.txt" true]
           sample_walked_root eq_refl).
Defined.

Lemma collected_iff_bundled_witness :
  encountered literal_fnmatch sample_excludes ∅ sample_tree_output sample_bundle_output
              sample_root ["src"] "│   " 1 0 (File "guide.md" true)
  /\ (In ["src"; "guide.md"] (snd (sample_build sample_root))
      <-> (Str.lower (path_suffix "guide.md") ∈ sample_exts \/ "guide.md" ∈ sample_names)).
Proof.
  assert (H : encountered literal_fnmatch sample_excludes ∅ sample_tree_output
                sample_bundle_output sample_root ["src"] "│   " 1 0 (File "guide.md" true)).
  { exists [File "guide.md" true; File "tree.txt" true].
    split; [exact sample_walked_src|]. repeat split; by_computation. }
  split; [exact H|].
  exact (collected_iff_bundled literal_fnmatch sample_excludes ∅ sample_exts sample_names
           sample_tree_output sample_bundle_output "root" sample_root
           ["src"] "│   " 1 0 (File "guide.md" true) H).
Defined.

Lemma excluded_subtree_never_visited_witness :
  In ["src"; "guide.md"] (snd (sample_build sample_root))
  /\ In "src" (removelast ["src"; "guide.md"])
  /\ "src" ∉ sample_excludes.
Proof.
  assert (H1 : In ["src"; "guide.md"] (snd (sample_build sample_root)))
    by (vm_compute; left; reflexivity).
  assert (H2 : In "src" (removelast ["src"; "guide.md"]))
    by (vm_compute; left; reflexivity).
  split; [exact H1|]. split; [exact H2|].
  exact (proj2 (proj2 (excluded_subtree_never_visited literal_fnmatch sample_excludes ∅
                         sample_exts sample_names sample_tree_output sample_bundle_output
                         "root" sample_root))
               ["src"; "guide.md"] "src" H1 H2).
Defined.

(** The excluded directory [.git] of the sample and the file below it
    leave no trace: the output is that of the root without it. *)
Example excluded_directory_sample :
  sample_build sample_root
  = sample_build (prune_dir (excluded_dir sample_excludes) sample_root)
  /\ prune_dir (excluded_dir sample_excludes) sample_root
     = Entries (List.filter (fun p => negb (String.eqb (name p) ".git")) sample_entries).
Proof. split; by_computation. Qed.

Lemma output_names_skipped_everywhere_witness :
  In ["src"; "guide.md"] (snd (sample_build sample_root))
  /\ path_name ["src"; "guide.md"] <> path_name sample_tree_output
  /\ path_name ["src"; "guide.md"] <> path_name sample_bundle_output.
Proof.
  assert (H : In ["src"; "guide.md"] (snd (sample_build sample_root)))
    by (vm_compute; left; reflexivity).
  split; [exact H|].
  exact (proj2 (proj2 (proj2 (output_names_skipped_everywhere literal_fnmatch
                                sample_excludes ∅ sample_exts sample_names
                                sample_tree_output sample_bundle_output
                                "root" sample_root)))
               ["src"; "guide.md"] H).
Defined.

(** [src/tree.txt] is not an output of the run, which writes its tree to
    [/tmp/tree.txt]; it is dropped all the same, whatever its extension. *)
Example output_name_sample :
  In (File "tree.txt" true) [File "guide.md" true; File "tree.txt" true]
  /\ sample_visible ["src"] [File "guide.md" true; File "tree.txt" true]
     = [File "guide.md" true]
  /\ build_tree_and_collect_files literal_fnmatch sample_excludes ∅ {[ ".txt" ]} ∅
       sample_tree_output sample_bundle_output "root"
       (Entries [Dir "src" (Entries [File "tree.txt" true])])
     = (Str.join newline ["root/"; "└── src/"], []).
Proof. split; [right; left; reflexivity|]. split; by_computation. Qed.

Lemma excluded_name_spares_files_witness :
  In (File "venv" true) sample_entries
  /\ "venv" ∈ sample_excludes
  /\ matches_any_glob literal_fnmatch ([] ++ ["venv"]) ∅ = false
  /\ ("venv" ∉ skip_names sample_tree_output sample_bundle_output)
  /\ exists idx,
       nth_error (sample_visible [] sample_entries) idx = Some (File "venv" true)
       /\ In (EmptyString
                +:+ (if Nat.eqb idx (List.length (sample_visible [] sample_entries) - 1)
                     then branch_last else branch_mid)
                +:+ "venv")
             (lines (sample_walk sample_root))
       /\ (Str.lower (path_suffix "venv") ∈ sample_exts \/ "venv" ∈ sample_names ->
           In ([] ++ ["venv"]) (collected (sample_walk sample_root))).
Proof.
  assert (H1 : In (File "venv" true) sample_entries)
    by (vm_compute; do 7 right; left; reflexivity).
  assert (H2 : "venv" ∈ sample_excludes) by decide_by_computation.
  assert (H3 : matches_any_glob literal_fnmatch ([] ++ ["venv"]) ∅ = false)
    by by_computation.
  assert (H4 : "venv" ∉ skip_names sample_tree_output sample_bundle_output)
    by decide_by_computation.
  repeat (split; [assumption|]).
  exact (excluded_name_spares_files literal_fnmatch sample_excludes ∅ sample_exts
           sample_names sample_tree_output sample_bundle_output "root" sample_root
           [] EmptyString sample_entries "venv" true
           sample_walked_root H1 H2 H3 H4).
Defined.

Lemma permission_denied_sentinel_witness :
  sample_visible [] sample_entries
  = [Dir "gone" FileNotFoundError] ++ Dir "locked" PermissionError
      :: List.skipn 2 (sample_visible [] sample_entries)
  /\ lines (sample_walk sample_root)
     = ["root/"; "├── gone/"]
         ++ ["├── locked/"; "│   └── [permission denied]"]
         ++ List.skipn 4 (lines (sample_walk sample_root)).
Proof.
  assert (H : sample_visible [] sample_entries
              = [Dir "gone" FileNotFoundError] ++ Dir "locked" PermissionError
                  :: List.skipn 2 (sample_visible [] sample_entries))
    by by_computation.
  split; [exact H|].
  unfold sample_walk, walk_root.
  change sample_root with (Entries sample_entries).
  rewrite (proj2 (permission_denied_sentinel literal_fnmatch sample_excludes ∅ sample_exts
                    sample_names sample_tree_output sample_bundle_output)
                 [] EmptyString sample_entries _ "locked" _ _ H).
  by_computation.
Defined.

Lemma vanished_directory_keeps_its_line_witness :
  sample_visible [] sample_entries
  = [] ++ Dir "gone" FileNotFoundError :: List.skipn 1 (sample_visible [] sample_entries)
  /\ lines (sample_walk sample_root)
     = ["root/"] ++ ["├── gone/"] ++ List.skipn 2 (lines (sample_walk sample_root)).
Proof.
  assert (H : sample_visible [] sample_entries
              = [] ++ Dir "gone" FileNotFoundError
                  :: List.skipn 1 (sample_visible [] sample_entries))
    by by_computation.
  split; [exact H|].
  unfold sample_walk, walk_root.
  change sample_root with (Entries sample_entries).
  rewrite (proj2 (vanished_directory_keeps_its_line literal_fnmatch sample_excludes ∅
                    sample_exts sample_names sample_tree_output sample_bundle_output)
                 [] EmptyString sample_entries _ "gone" _ _ H).
  by_computation.
Defined.

(** C3 as stated fails: a directory that has vanished when it is visited
    still has its line in the tree, and the output differs from that of the
    root without it. *)
Lemma vanished_directory_leaves_trace :
  sample_build (Entries [Dir "gone" FileNotFoundError])
  = (Str.join newline ["root/"; "└── gone/"], [])
  /\ sample_build (Entries []) = ("root/", [])
  /\ sample_build (Entries [Dir "gone" FileNotFoundError]) <> sample_build (Entries []).
Proof.
  split; [by_computation|]. split; [by_computation|].
  vm_compute. discriminate.
Qed.

Lemma entries_sorted_by_key_witness :
  (Permutation [File "b.txt" true; Dir "A" (Entries []); Symlink "s" None]
               [Dir "A" (Entries []); File "b.txt" true; Symlink "s" None]
   /\ List.NoDup (List.map sort_key
                    (List.filter (fun p => negb (is_symlink p))
                       [File "b.txt" true; Dir "A" (Entries []); Symlink "s" None]))
   /\ sorted_entries [File "b.txt" true; Dir "A" (Entries []); Symlink "s" None]
      = sorted_entries [Dir "A" (Entries []); File "b.txt" true; Symlink "s" None])
  /\ ((forall a b,
          is_file a && String.eqb (Str.lower (name a)) "a" = true ->
          is_file b && String.eqb (Str.lower (name b)) "a" = true ->
          sort_key a = sort_key b)
      /\ List.filter (fun p => is_file p && String.eqb (Str.lower (name p)) "a")
            (sorted_entries [File "A" true; File "b" true; Dir "a" (Entries []);
                             File "a" true])
         = [File "A" true; File "a" true]
      /\ List.filter (fun p => is_file p && String.eqb (Str.lower (name p)) "a")
            (sorted_entries [File "a" true; File "b" true; Dir "a" (Entries []);
                             File "A" true])
         = [File "a" true; File "A" true]).
Proof.
  assert (H1 : Permutation [File "b.txt" true; Dir "A" (Entries []); Symlink "s" None]
                           [Dir "A" (Entries []); File "b.txt" true; Symlink "s" None])
    by apply perm_swap.
  assert (H2 : List.NoDup (List.map sort_key
                             (List.filter (fun p => negb (is_symlink p))
                                [File "b.txt" true; Dir "A" (Entries []); Symlink "s" None]))).
  { vm_compute. constructor; [intros [H | []]; discriminate|].
    constructor; [intros []|constructor]. }
  assert (H3 : forall a b,
             is_file a && String.eqb (Str.lower (name a)) "a" = true ->
             is_file b && String.eqb (Str.lower (name b)) "a" = true ->
             sort_key a = sort_key b).
  { intros a b Ha Hb. apply andb_true_iff in Ha as [Ha1 Ha2], Hb as [Hb1 Hb2].
    apply String.eqb_eq in Ha2, Hb2. unfold sort_key. congruence. }
  split; [split; [exact H1|]; split; [exact H2|]|].
  - exact (proj1 (proj2 (proj2 (entries_sorted_by_key literal_fnmatch sample_excludes ∅
                                  sample_exts sample_names sample_tree_output
                                  sample_bundle_output)))
                 _ _ H1 H2).
  - split; [exact H3|]. split.
    + exact (proj2 (proj2 (proj2 (proj2 (entries_sorted_by_key literal_fnmatch
                                           sample_excludes ∅ sample_exts sample_names
                                           sample_tree_output sample_bundle_output))))
                   [File "A" true; File "b" true; Dir "a" (Entries []); File "a" true]
                   (fun p => is_file p && String.eqb (Str.lower (name p)) "a") H3).
    + exact (proj2 (proj2 (proj2 (proj2 (entries_sorted_by_key literal_fnmatch
                                           sample_excludes ∅ sample_exts sample_names
                                           sample_tree_output sample_bundle_output))))
                   [File "a" true; File "b" true; Dir "a" (Entries []); File "A" true]
                   (fun p => is_file p && String.eqb (Str.lower (name p)) "a") H3).
Defined.

(** C6 as stated fails on two inputs, where the order is not the one of a
    directories-first, listing-independent sort.  A socket named "a" is not a regular file and
    is sorted with the directories, before the directory "b", though it is
    shown and bundled as a file.  The files "A" and "a" have the same key,
    so they stay in the order in which the directory was listed, and two
    listings of the same directory give two different trees. *)
Lemma sort_order_counterexample :
  (sorted_entries [Dir "b" (Entries []); File "a" false]
   = [File "a" false; Dir "b" (Entries [])]
   /\ fst (sample_build (Entries [Dir "b" (Entries []); File "a" false]))
      = Str.join newline ["root/"; "├── a"; "└── b/"])
  /\ (Permutation [File "A" true; File "a" true] [File "a" true; File "A" true]
      /\ sorted_entries [File "A" true; File "a" true]
         <> sorted_entries [File "a" true; File "A" true]
      /\ fst (sample_build (Entries [File "A" true; File "a" true]))
         = Str.join newline ["root/"; "├── A"; "└── a"]
      /\ fst (sample_build (Entries [File "a" true; File "A" true]))
         = Str.join newline ["root/"; "├── a"; "└── A"]).
Proof.
  split; [split; by_computation|].
  split; [apply perm_swap|].
  split; [vm_compute; discriminate|].
  split; by_computation.
Qed.

Lemma bundle_is_blocks_witness :
  sample_read_text ["readme.md"] = inl "# readme"
  /\ block_body sample_read_text ["readme.md"] = "# readme".
Proof.
  assert (H : sample_read_text ["readme.md"] = inl "# readme") by reflexivity.
  split; [exact H|].
  exact (proj2 (proj2 (proj2 (proj2 (proj2 (proj2 (bundle_is_blocks sample_read_text))))))
               ["readme.md"] "# readme" H).
Defined.

Example bundle_sample :
  write_bundle sample_read_text [["src"; "guide.md"]; ["locked"; "x.md"]]
  = Str.join newline
      [ ""; "";
        rule; "FILE: src/guide.md"; rule;
        "# guide"; "";
        rule; "FILE: locked/x.md"; rule;
        "[ERROR READING FILE: [Errno 13] Permission denied]"; "" ].
Proof. by_computation. Qed.

(** * Further properties *)

(** ** Comma-separated options *)

Module CsvFacts.
Import Str.

Lemma lstrip_head s :
  lstrip s = EmptyString
  \/ exists c t, lstrip s = String c t /\ is_space c = false.
Proof.
  induction s as [|c s IH]; simpl; [now left|].
  destruct (is_space c) eqn:E; [exact IH|]. right. now exists c, s.
Qed.

Lemma rstrip_cons c s :
  rstrip (String c s)
  = match rstrip s with
    | EmptyString => if is_space c then EmptyString else String c EmptyString
    | r => String c r
    end.
Proof. reflexivity. Qed.

Lemma rstrip_idem s : rstrip (rstrip s) = rstrip s.
Proof.
  induction s as [|c s IH]; [reflexivity|].
  rewrite rstrip_cons. destruct (rstrip s) as [|d r] eqn:E.
  - destruct (is_space c) eqn:Ec; [reflexivity|].
    rewrite rstrip_cons. simpl. now rewrite Ec.
  - rewrite rstrip_cons, IH. reflexivity.
Qed.

Lemma rstrip_head c t :
  is_space c = false -> exists r, rstrip (String c t) = String c r.
Proof.
  intros Ec. simpl. destruct (rstrip t) as [|d r].
  - rewrite Ec. now exists EmptyString.
  - now exists (String d r).
Qed.

Lemma strip_idem s : strip (strip s) = strip s.
Proof.
  unfold strip. destruct (lstrip_head s) as [E | (c & t & E & Ec)]; rewrite E.
  - reflexivity.
  - destruct (rstrip_head c t Ec) as [r Er]. rewrite Er.
    cbn [lstrip]. rewrite Ec, <- Er. apply rstrip_idem.
Qed.

Lemma lstrip_chars a s : has_char a (lstrip s) -> has_char a s.
Proof.
  unfold has_char. induction s as [|c s IH]; simpl; [auto|].
  destruct (is_space c); simpl; auto.
Qed.

Lemma rstrip_chars a s : has_char a (rstrip s) -> has_char a s.
Proof.
  unfold has_char. induction s as [|c s IH]; simpl; [auto|].
  destruct (rstrip s) as [|d r].
  - destruct (is_space c); simpl; tauto.
  - simpl in *. tauto.
Qed.

Lemma strip_chars a s : has_char a (strip s) -> has_char a s.
Proof. intros H. now apply lstrip_chars, rstrip_chars. Qed.

Lemma split_nonempty sep s : split sep s <> [].
Proof.
  destruct s as [|c s]; simpl; [discriminate|].
  destruct (Ascii.eqb c sep); [discriminate|].
  destruct (split sep s); discriminate.
Qed.

(** The parts of a split hold no separator. *)
Lemma split_chars sep s part : In part (split sep s) -> ~ has_char sep part.
Proof.
  unfold has_char. revert part. induction s as [|c s IH]; simpl; intros part.
  - intros [<- | []]. simpl. tauto.
  - destruct (Ascii.eqb_spec c sep) as [-> | Hne].
    + intros [<- | H]; [simpl; tauto | now apply IH].
    + destruct (split sep s) as [|h t] eqn:E; [now destruct (split_nonempty sep s)|].
      intros [<- | H].
      * simpl. intros [-> | Hin]; [congruence|]. apply (IH h); [now left | exact Hin].
      * apply IH. now right.
Qed.

Lemma split_no_sep sep s : ~ has_char sep s -> split sep s = [s].
Proof.
  unfold has_char. induction s as [|c s IH]; simpl; [reflexivity|].
  intros H. destruct (Ascii.eqb_spec c sep) as [-> | Hne]; [tauto|].
  rewrite IH by tauto. reflexivity.
Qed.

Lemma split_app sep s rest :
  ~ has_char sep s ->
  split sep (s +:+ String sep rest) = s :: split sep rest.
Proof.
  unfold has_char. induction s as [|c s IH]; intros H.
  - simpl. now rewrite Ascii.eqb_refl.
  - change (String c s +:+ String sep rest) with (String c (s +:+ String sep rest)).
    simpl in *. destruct (Ascii.eqb_spec c sep) as [-> | Hne]; [tauto|].
    rewrite IH by tauto. reflexivity.
Qed.

(** Splitting what was joined gives the parts back. *)
Lemma split_join sep l :
  l <> [] -> (forall x, In x l -> ~ has_char sep x) ->
  split sep (join (String sep EmptyString) l) = l.
Proof.
  induction l as [|x l IH]; [congruence|]. intros _ H.
  destruct l as [|y l].
  - simpl. apply split_no_sep, H. now left.
  - change (join (String sep EmptyString) (x :: y :: l))
      with (x +:+ String sep EmptyString +:+ join (String sep EmptyString) (y :: l)).
    change (String sep EmptyString +:+ join (String sep EmptyString) (y :: l))
      with (String sep (join (String sep EmptyString) (y :: l))).
    rewrite split_app by (apply H; now left).
    rewrite IH; [reflexivity | discriminate|].
    intros z Hz. apply H. now right.
Qed.

Lemma truthy_true s : truthy s = true <-> s <> EmptyString.
Proof. destruct s; simpl; split; congruence. Qed.

Lemma join_truthy sep x l : truthy x = true -> truthy (join sep (x :: l)) = true.
Proof.
  destruct x as [|c x]; [discriminate|]. intros _.
  destruct l; reflexivity.
Qed.

End CsvFacts.

Lemma parse_csv_set_elem s e :
  e ∈ parse_csv_set s
  <-> exists part, In part (Str.split "," s)
                   /\ Str.strip part = e /\ e <> EmptyString.
Proof.
  unfold parse_csv_set. destruct s as [|c s].
  - cbn [Str.truthy negb]. split; [set_solver|].
    intros (part & [<- | []] & <- & H). now destruct H.
  - cbn [Str.truthy negb]. rewrite elem_of_list_to_set, list_elem_of_In, in_map_iff.
    split.
    + intros (part & <- & H). apply filter_In in H as [H1 H2].
      exists part. repeat split; [exact H1|]. now apply CsvFacts.truthy_true.
    + intros (part & H1 & <- & H2). exists part. split; [reflexivity|].
      apply filter_In. split; [exact H1|]. now apply CsvFacts.truthy_true.
Qed.

(** X1.  Whatever string is given, every entry of the set that
    [parse_csv_set] returns is not empty, has no white space at either end
    and holds no comma; the empty string gives the empty set. *)
Theorem parse_csv_set_entries_clean s :
  (forall e, e ∈ parse_csv_set s -> clean_token e)
  /\ parse_csv_set EmptyString = ∅.
Proof.
  split; [|reflexivity].
  intros e H. apply parse_csv_set_elem in H as (part & Hin & <- & Hne).
  repeat split; [exact Hne | apply CsvFacts.strip_idem|].
  intros Hc. apply CsvFacts.strip_chars in Hc.
  exact (CsvFacts.split_chars _ _ _ Hin Hc).
Qed.

(** X2.  Parsing gives back what was joined: for any list of entries that
    are not empty, have no surrounding white space and hold no comma,
    [parse_csv_set] of the entries joined by commas is the set of the
    entries. *)
Theorem parse_csv_set_join l :
  (forall x, In x l -> clean_token x) ->
  parse_csv_set (Str.join "," l) = list_to_set l.
Proof.
  intros H. destruct l as [|x l]; [reflexivity|].
  assert (Hx : Str.truthy x = true).
  { apply CsvFacts.truthy_true, (H x). now left. }
  unfold parse_csv_set.
  rewrite (CsvFacts.join_truthy "," x l Hx). cbn [negb].
  rewrite (CsvFacts.split_join "," (x :: l)); [|discriminate|intros y Hy; apply (H y Hy)].
  f_equal. generalize (x :: l) H. clear. intros l H.
  induction l as [|y l IH]; [reflexivity|].
  destruct (H y (or_introl eq_refl)) as (Hne & Hs & _).
  cbn [List.filter]. rewrite Hs.
  apply CsvFacts.truthy_true in Hne. rewrite Hne. cbn [List.map]. rewrite Hs.
  f_equal. apply IH. intros z Hz. apply H. now right.
Qed.

Lemma parse_csv_set_join_witness :
  (forall x, In x ["node_modules"; "__pycache__"] -> clean_token x)
  /\ parse_csv_set (Str.join "," ["node_modules"; "__pycache__"])
     = list_to_set ["node_modules"; "__pycache__"].
Proof.
  assert (H : forall x, In x ["node_modules"; "__pycache__"] -> clean_token x).
  { intros x [<- | [<- | []]]; (split; [discriminate|]); (split; [reflexivity|]);
      vm_compute; intuition discriminate. }
  split; [exact H|]. exact (parse_csv_set_join _ H).
Defined.

Lemma parse_csv_set_entries_clean_witness :
  "b c" ∈ parse_csv_set " a ,, b c," /\ clean_token "b c".
Proof.
  assert (H : "b c" ∈ parse_csv_set " a ,, b c,") by decide_by_computation.
  split; [exact H|].
  exact (proj1 (parse_csv_set_entries_clean " a ,, b c,") "b c" H).
Defined.

(** ** The extensions option *)

Module LowerFacts.
Import Str.

Lemma eqb_lower_comma c : Ascii.eqb (lower_char c) "," = Ascii.eqb c ",".
Proof. destruct c as [[] [] [] [] [] [] [] []]; reflexivity. Qed.

Lemma eqb_lower_dot c : Ascii.eqb (lower_char c) "." = Ascii.eqb c ".".
Proof. destruct c as [[] [] [] [] [] [] [] []]; reflexivity. Qed.

Lemma is_space_lower c : is_space (lower_char c) = is_space c.
Proof. destruct c as [[] [] [] [] [] [] [] []]; reflexivity. Qed.

Lemma truthy_lower s : truthy (lower s) = truthy s.
Proof. destruct s; reflexivity. Qed.

Lemma startswith_dot_lower s : startswith_dot (lower s) = startswith_dot s.
Proof. destruct s as [|c s]; [reflexivity | apply eqb_lower_dot]. Qed.

Lemma split_lower s : split "," (lower s) = List.map lower (split "," s).
Proof.
  induction s as [|c s IH]; [reflexivity|].
  cbn [lower split]. rewrite eqb_lower_comma, IH.
  destruct (Ascii.eqb c ","); [reflexivity|].
  destruct (split "," s); reflexivity.
Qed.

Lemma lstrip_lower s : lstrip (lower s) = lower (lstrip s).
Proof.
  induction s as [|c s IH]; [reflexivity|].
  cbn [lower lstrip]. rewrite is_space_lower. now destruct (is_space c).
Qed.

Lemma rstrip_lower s : rstrip (lower s) = lower (rstrip s).
Proof.
  induction s as [|c s IH]; [reflexivity|].
  cbn [lower]. rewrite !CsvFacts.rstrip_cons, IH, is_space_lower.
  destruct (rstrip s); [now destruct (is_space c) | reflexivity].
Qed.

Lemma strip_lower s : strip (lower s) = lower (strip s).
Proof. unfold strip. now rewrite lstrip_lower, rstrip_lower. Qed.

Lemma lower_with_dot tok : lower (with_dot (lower tok)) = lower (with_dot tok).
Proof.
  unfold with_dot. rewrite startswith_dot_lower.
  destruct (startswith_dot tok); [apply StrFacts.lower_idem|].
  change (String (lower_char ".") (lower (lower tok))
          = String (lower_char ".") (lower tok)).
  now rewrite StrFacts.lower_idem.
Qed.

End LowerFacts.

Lemma parse_csv_set_lower s e :
  e ∈ parse_csv_set (Str.lower s)
  <-> exists tok, tok ∈ parse_csv_set s /\ e = Str.lower tok.
Proof.
  rewrite parse_csv_set_elem, LowerFacts.split_lower. split.
  - intros (part & Hin & <- & Hne). apply in_map_iff in Hin as (part0 & <- & Hin).
    rewrite LowerFacts.strip_lower in *. exists (Str.strip part0). split; [|reflexivity].
    apply parse_csv_set_elem. exists part0. repeat split; [exact Hin|].
    intros E. rewrite E in Hne. now apply Hne.
  - intros (tok & Htok & ->). apply parse_csv_set_elem in Htok as (part & Hin & <- & Hne).
    exists (Str.lower part). split; [now apply in_map|].
    rewrite LowerFacts.strip_lower. split; [reflexivity|].
    destruct (Str.strip part); [now destruct Hne | discriminate].
Qed.

Lemma main_allowed_exts_elem s e :
  s <> EmptyString ->
  e ∈ main_allowed_exts (Some s)
  <-> exists tok, tok ∈ parse_csv_set s /\ e = Str.lower (with_dot tok).
Proof.
  intros Hs. unfold main_allowed_exts, args_exts, normalized_exts, parse_csv_set.
  destruct s as [|c s]; [congruence|]. cbn [Str.truthy negb].
  rewrite elem_of_map. setoid_rewrite elem_of_map. split.
  - intros (x & -> & tok & -> & Htok). exists tok. split; [exact Htok|].
    unfold with_dot. destruct (Str.startswith_dot tok); [reflexivity|].
    apply StrFacts.lower_idem.
  - intros (tok & Htok & ->). eexists. split; [|exists tok; split; [reflexivity | exact Htok]].
    unfold with_dot. destruct (Str.startswith_dot tok); [reflexivity|].
    symmetry. apply StrFacts.lower_idem.
Qed.

(** X3.  A non-empty [--exts] value resolves, entry by entry, to the
    lowercased entry with a dot put in front when it has none: the set that
    [main] matches extensions against is the image of [parse_csv_set] under
    that one normalisation, whether or not an entry came with its dot. *)
Theorem main_allowed_exts_of_tokens s :
  s <> EmptyString ->
  main_allowed_exts (Some s)
  = set_map (fun tok => Str.lower (with_dot tok)) (parse_csv_set s).
Proof.
  intros Hs. apply set_eq. intros e.
  rewrite (main_allowed_exts_elem s e Hs), elem_of_map.
  split; intros (tok & H1 & H2); exists tok; tauto.
Qed.

Lemma main_allowed_exts_of_tokens_witness :
  " PY, .Md ,,x.Y" <> EmptyString
  /\ main_allowed_exts (Some " PY, .Md ,,x.Y")
     = set_map (fun tok => Str.lower (with_dot tok)) (parse_csv_set " PY, .Md ,,x.Y").
Proof.
  assert (H : " PY, .Md ,,x.Y" <> EmptyString) by discriminate.
  split; [exact H|]. exact (main_allowed_exts_of_tokens _ H).
Defined.

(** X4.  A [--exts] value that is not empty but holds no entry (only
    commas and white space) resolves to the empty set, not to the default
    extensions: no file is then bundled for its extension. *)
Theorem main_allowed_exts_blank s :
  s <> EmptyString -> parse_csv_set s = ∅ -> main_allowed_exts (Some s) = ∅.
Proof.
  intros Hs Hp. apply set_eq. intros e.
  rewrite (main_allowed_exts_elem s e Hs), Hp. split.
  - intros (tok & Htok & _). now apply not_elem_of_empty in Htok.
  - intros He. now apply not_elem_of_empty in He.
Qed.

Lemma main_allowed_exts_blank_witness :
  " , " <> EmptyString /\ parse_csv_set " , " = ∅ /\ main_allowed_exts (Some " , ") = ∅.
Proof.
  assert (H1 : " , " <> EmptyString) by discriminate.
  assert (H2 : parse_csv_set " , " = ∅) by by_computation.
  split; [exact H1|]. split; [exact H2|]. exact (main_allowed_exts_blank _ H1 H2).
Defined.

(** X5.  The case of the letters in [--exts] does not matter: the value
    and its lowercased form resolve to the same set of extensions. *)
Theorem main_allowed_exts_case_insensitive s :
  main_allowed_exts (Some (Str.lower s)) = main_allowed_exts (Some s).
Proof.
  destruct s as [|c s]; [reflexivity|].
  apply set_eq. intros e.
  rewrite !main_allowed_exts_elem by discriminate. split.
  - intros (tok & Htok & ->). apply parse_csv_set_lower in Htok as (tok0 & Htok0 & ->).
    exists tok0. split; [exact Htok0 | apply LowerFacts.lower_with_dot].
  - intros (tok & Htok & ->). exists (Str.lower tok). split.
    + apply parse_csv_set_lower. now exists tok.
    + symmetry. apply LowerFacts.lower_with_dot.
Qed.

(** ** The tree and the bundle list under different filters *)

Section EngineFilters.

Variable fnmatch : string -> string -> bool.
Variables excludes ignore_globs : gset string.
Variables tree_output bundle_output : Path.

Local Abbreviation walk_with A I :=
  (_walk fnmatch excludes ignore_globs A I tree_output bundle_output).
Local Abbreviation loop_with A I :=
  (for_visible A I (_walk fnmatch excludes ignore_globs A I tree_output bundle_output)).
Local Abbreviation visible_in :=
  (visible_entries fnmatch excludes ignore_globs tree_output bundle_output).

Lemma bundled_mono (A I A' I' : gset string) n :
  A ⊆ A' -> I ⊆ I' -> bundled A I n = true -> bundled A' I' n = true.
Proof.
  intros HA HI. unfold bundled. rewrite !orb_true_iff, !bool_decide_eq_true.
  intros [H | H]; [left; now apply HA | right; now apply HI].
Qed.

Section TwoFilters.
Variables A I A' I' : gset string.

Lemma loop_lines_indep dir_rel prefix total idx visible st st' :
  (forall n c, In (Dir n c) visible ->
               forall r p s s', lines s = lines s' ->
                                lines (walk_with A I r p c s)
                                = lines (walk_with A' I' r p c s')) ->
  lines st = lines st' ->
  lines (loop_with A I dir_rel prefix total idx visible st)
  = lines (loop_with A' I' dir_rel prefix total idx visible st').
Proof.
  revert idx st st'. induction visible as [|p rest IH]; intros idx st st' H E; [exact E|].
  cbn [for_visible]. apply IH; [intros; eapply H; [right|]; eassumption|].
  unfold_visit. destruct p as [n t|n k|n c]; cbn [name is_dir].
  - destruct (bundled A I n), (bundled A' I' n); simpl; now rewrite E.
  - destruct (bundled A I n), (bundled A' I' n); simpl; now rewrite E.
  - apply (H n c); [now left|]. simpl. now rewrite E.
Qed.

Lemma walk_lines_indep d :
  forall r p s s', lines s = lines s' ->
                   lines (walk_with A I r p d s) = lines (walk_with A' I' r p d s').
Proof.
  induction d as [| |es IH] using dir_ind; intros r p s s' E.
  - rewrite !_walk_PermissionError. simpl. now rewrite E.
  - exact E.
  - rewrite !_walk_Entries. cbv zeta. apply loop_lines_indep; [|exact E].
    intros n c Hin. apply (IH n c). now apply visible_entries_In in Hin.
Qed.

Hypothesis A_sub : A ⊆ A'.
Hypothesis I_sub : I ⊆ I'.

Lemma loop_collected_mono dir_rel prefix total idx visible st st' :
  (forall n c, In (Dir n c) visible ->
               forall r p s s', sublist (collected s) (collected s') ->
                                sublist (collected (walk_with A I r p c s))
                                        (collected (walk_with A' I' r p c s'))) ->
  sublist (collected st) (collected st') ->
  sublist (collected (loop_with A I dir_rel prefix total idx visible st))
          (collected (loop_with A' I' dir_rel prefix total idx visible st')).
Proof.
  revert idx st st'. induction visible as [|p rest IH]; intros idx st st' H E; [exact E|].
  cbn [for_visible]. apply IH; [intros; eapply H; [right|]; eassumption|].
  unfold_visit. destruct p as [n t|n k|n c]; cbn [name is_dir].
  - destruct (bundled A I n) eqn:B.
    + rewrite (bundled_mono _ _ _ _ n A_sub I_sub B). simpl. now apply sublist_app.
    + destruct (bundled A' I' n); simpl; [now apply sublist_inserts_r | exact E].
  - destruct (bundled A I n) eqn:B.
    + rewrite (bundled_mono _ _ _ _ n A_sub I_sub B). simpl. now apply sublist_app.
    + destruct (bundled A' I' n); simpl; [now apply sublist_inserts_r | exact E].
  - apply (H n c); [now left | exact E].
Qed.

Lemma walk_collected_mono d :
  forall r p s s', sublist (collected s) (collected s') ->
                   sublist (collected (walk_with A I r p d s))
                           (collected (walk_with A' I' r p d s')).
Proof.
  induction d as [| |es IH] using dir_ind; intros r p s s' E.
  - exact E.
  - exact E.
  - rewrite !_walk_Entries. cbv zeta. apply loop_collected_mono; [|exact E].
    intros n c Hin. apply (IH n c). now apply visible_entries_In in Hin.
Qed.

End TwoFilters.

(** X6.  The tree does not depend on the extension filter: whatever the
    allowed extensions and the always-include names are, the text written
    to the tree file is the same.  The two sets decide the bundle only. *)
Theorem tree_independent_of_bundle_filters A I A' I' root_name root :
  fst (build_tree_and_collect_files fnmatch excludes ignore_globs A I
         tree_output bundle_output root_name root)
  = fst (build_tree_and_collect_files fnmatch excludes ignore_globs A' I'
           tree_output bundle_output root_name root).
Proof.
  unfold_build. cbn [fst]. f_equal. now apply walk_lines_indep.
Qed.

(** X7.  Allowing more extensions or more names never drops a file from
    the bundle list nor reorders it: the list collected under the smaller
    sets is a sublist, in order, of the list collected under the larger. *)
Theorem collected_grows_with_filters A I A' I' root_name root :
  A ⊆ A' -> I ⊆ I' ->
  sublist (snd (build_tree_and_collect_files fnmatch excludes ignore_globs A I
                  tree_output bundle_output root_name root))
          (snd (build_tree_and_collect_files fnmatch excludes ignore_globs A' I'
                  tree_output bundle_output root_name root)).
Proof.
  intros HA HI. unfold_build. cbn [snd]. now apply walk_collected_mono.
Qed.

End EngineFilters.

Lemma collected_grows_with_filters_witness :
  ({[ ".md" ]} : gset string) ⊆ {[ ".md"; ".py" ]}
  /\ (∅ : gset string) ⊆ sample_names
  /\ sublist
       (snd (build_tree_and_collect_files literal_fnmatch sample_excludes ∅
               {[ ".md" ]} ∅ sample_tree_output sample_bundle_output "root" sample_root))
       (snd (build_tree_and_collect_files literal_fnmatch sample_excludes ∅
               {[ ".md"; ".py" ]} sample_names sample_tree_output sample_bundle_output
               "root" sample_root)).
Proof.
  assert (H1 : ({[ ".md" ]} : gset string) ⊆ {[ ".md"; ".py" ]}) by set_solver.
  assert (H2 : (∅ : gset string) ⊆ sample_names) by set_solver.
  split; [exact H1|]. split; [exact H2|].
  exact (collected_grows_with_filters literal_fnmatch sample_excludes ∅
           sample_tree_output sample_bundle_output _ _ _ _ "root" sample_root H1 H2).
Defined.

(** ** What the bundle list holds *)

Lemma NoDup_map_filter {A B : Type} (f : A -> B) (g : A -> bool) l :
  List.NoDup (List.map f l) -> List.NoDup (List.map f (List.filter g l)).
Proof.
  induction l as [|x l IH]; simpl; [auto|].
  intros H. apply List.NoDup_cons_iff in H as [Hx Hl].
  destruct (g x); simpl; [|auto].
  constructor; [|auto]. intros Hin. apply Hx.
  apply in_map_iff in Hin as (y & E & Hy). apply filter_In in Hy as [Hy _].
  rewrite <- E. now apply in_map.
Qed.

Section EngineMore.

Variable fnmatch : string -> string -> bool.
Variables excludes ignore_globs allowed_exts include_names : gset string.
Variables tree_output bundle_output : Path.

Local Abbreviation visible_entries :=
  (visible_entries fnmatch excludes ignore_globs tree_output bundle_output).
Local Abbreviation is_visible :=
  (is_visible fnmatch excludes ignore_globs tree_output bundle_output).
Local Abbreviation visit := (visit allowed_exts include_names).
Local Abbreviation for_visible := (for_visible allowed_exts include_names).
Local Abbreviation _walk :=
  (_walk fnmatch excludes ignore_globs allowed_exts include_names
         tree_output bundle_output).
Local Abbreviation walked :=
  (walked fnmatch excludes ignore_globs tree_output bundle_output).
Local Abbreviation encountered :=
  (encountered fnmatch excludes ignore_globs tree_output bundle_output).
Local Abbreviation build :=
  (build_tree_and_collect_files fnmatch excludes ignore_globs allowed_exts include_names
     tree_output bundle_output).

Lemma visible_entries_names dir_rel es :
  List.NoDup (List.map name es) -> List.NoDup (List.map name (visible_entries dir_rel es)).
Proof.
  intros H. unfold_visible. apply NoDup_map_filter.
  eapply Permutation_NoDup; [apply Permutation_map, sorted_perm|].
  now apply NoDup_map_filter.
Qed.

(** The paths that the visit of an entry collects lie at or below it. *)
Lemma visit_collected_below dir_rel prefix total idx p q :
  is_symlink p = false ->
  In q (collected (visit _walk dir_rel prefix total idx p no_output)) ->
  exists rest, q = dir_rel ++ name p :: rest.
Proof.
  intros Hsym. destruct p as [n t|n k|n c]; [discriminate| |].
  - rewrite visit_file by reflexivity. simpl.
    destruct (bundled _ _ n); [|intros []]. intros [<- | []]. now exists [].
  - rewrite visit_dir. simpl. intros H.
    apply collected_shape in H as (dirs & m & -> & _).
    exists (dirs ++ [m]). now rewrite <- app_assoc.
Qed.

Lemma for_visible_collected_nodup dir_rel prefix total idx visible :
  List.NoDup (List.map name visible) ->
  (forall p, In p visible -> is_symlink p = false) ->
  (forall n c, In (Dir n c) visible ->
               forall r p, List.NoDup (collected (_walk r p c no_output))) ->
  List.NoDup (collected (for_visible _walk dir_rel prefix total idx visible no_output)).
Proof.
  revert idx. induction visible as [|p rest IH]; intros idx Hnd Hsym Hdir; [constructor|].
  cbn [for_visible]. rewrite for_visible_frame. simpl.
  simpl in Hnd. apply List.NoDup_cons_iff in Hnd as [Hp Hnd].
  apply List.NoDup_app.
  - destruct p as [n t|n k|n c].
    + specialize (Hsym _ (or_introl eq_refl)). discriminate.
    + rewrite visit_file by reflexivity. simpl.
      destruct (bundled _ _ n); [|constructor]. constructor; [intros []|constructor].
    + rewrite visit_dir. simpl. apply (Hdir n c). now left.
  - apply IH; [exact Hnd | intros; apply Hsym; now right|].
    intros n c Hin. apply (Hdir n c). now right.
  - intros q Hq Hq'.
    apply visit_collected_below in Hq as [r1 E1]; [|apply Hsym; now left].
    apply for_visible_collected in Hq' as [[] | (p' & i & Hp' & Hq')].
    apply visit_collected_below in Hq' as [r2 E2]; [|apply Hsym; now right].
    rewrite E1 in E2. apply app_inv_head in E2. injection E2 as E2 _.
    apply Hp. rewrite E2. now apply in_map.
Qed.

Lemma _walk_collected_nodup d :
  unique_names d ->
  forall r p, List.NoDup (collected (_walk r p d no_output)).
Proof.
  induction d as [| |es IH] using dir_ind; intros Hu r p; try constructor.
  inversion Hu as [| |es' Hnd Hsub]; subst.
  rewrite _walk_Entries. cbv zeta. apply for_visible_collected_nodup.
  - now apply visible_entries_names.
  - intros q Hq. now apply visible_entries_In in Hq.
  - intros n c Hin. apply visible_entries_In in Hin as [Hin _].
    apply (IH n c Hin). now apply (Hsub n c).
Qed.

(** X8.  No file is bundled twice: when the names within each listed
    directory are pairwise different, as they are in a file system, the
    collected list holds no path more than once. *)
Theorem collected_without_duplicates root_name root :
  unique_names root -> List.NoDup (snd (build root_name root)).
Proof.
  intros Hu. unfold_build. cbn [snd]. rewrite _walk_frame. simpl.
  now apply _walk_collected_nodup.
Qed.

(** Every path collected below a walked directory is that of a file
    encountered there or further down. *)
Lemma for_visible_collected_at dir_rel prefix total idx visible st q :
  In q (collected (for_visible _walk dir_rel prefix total idx visible st)) ->
  In q (collected st)
  \/ exists p j, nth_error visible j = Some p
                 /\ In q (collected (visit _walk dir_rel prefix total (idx + j) p no_output)).
Proof.
  revert idx st. induction visible as [|p rest IH]; intros idx st; simpl; [now left|].
  intros H. apply IH in H as [H | (p' & j & Hp' & H)].
  - rewrite visit_frame in H. simpl in H. apply in_app_or in H as [H | H]; [now left|].
    right. exists p, 0. rewrite Nat.add_0_r. split; [reflexivity | exact H].
  - right. exists p', (S j). split; [exact Hp'|].
    now replace (idx + S j) with (S idx + j) by lia.
Qed.

Lemma collected_encountered root d :
  forall dir_rel prefix q,
    (forall es, d = Entries es -> walked root dir_rel prefix es) ->
    In q (collected (_walk dir_rel prefix d no_output)) ->
    exists dir_rel' prefix' total idx p,
      encountered root dir_rel' prefix' total idx p
      /\ q = dir_rel' ++ [name p]
      /\ bundled allowed_exts include_names (name p) = true.
Proof.
  induction d as [| |es IH] using dir_ind; intros dir_rel prefix q Hw; try (intros []).
  specialize (Hw es eq_refl).
  rewrite _walk_Entries. cbv zeta. intros H.
  apply for_visible_collected_at in H as [[] | (p & idx & Hnth & H)].
  cbn [Nat.add] in H.
  pose proof (nth_error_In _ _ Hnth) as Hp.
  apply visible_entries_In in Hp as (Hin & Hsym & _).
  destruct p as [n t|n k|n c]; [discriminate| |].
  - rewrite visit_file in H by reflexivity. simpl in H.
    destruct (bundled _ _ n) eqn:B; [|destruct H]. destruct H as [<- | []].
    exists dir_rel, prefix, (List.length (visible_entries dir_rel es)), idx, (File n k).
    split; [|split; [reflexivity | exact B]].
    exists es. repeat split; assumption.
  - rewrite visit_dir in H. simpl in H.
    apply (IH n c Hin) in H; [exact H|].
    intros es' ->. now apply (walked_child _ _ _ _ _ root dir_rel prefix es idx n es').
Qed.

(** X9.  Nothing is bundled that the tree does not show: every path in
    the collected list is that of an entry other than a directory which the
    traversal encounters as a visible entry, and the line of that entry is
    in the tree. *)
Theorem collected_are_listed root_name root q :
  In q (snd (build root_name root)) ->
  exists dir_rel prefix total idx p,
    encountered root dir_rel prefix total idx p
    /\ q = dir_rel ++ [name p]
    /\ In (prefix +:+ (if Nat.eqb idx (total - 1) then branch_last else branch_mid)
                   +:+ name p)
          (lines (walk_root fnmatch excludes ignore_globs allowed_exts include_names
                            tree_output bundle_output root_name root)).
Proof.
  intros H.
  assert (H' : In q (collected (_walk [] EmptyString root no_output))).
  { revert H. unfold_build. cbn [snd]. rewrite _walk_frame. simpl. tauto. }
  clear H.
  apply (collected_encountered root) in H'
    as (dir_rel & prefix & total & idx & p & Henc & -> & _).
  - exists dir_rel, prefix, total, idx, p. split; [exact Henc|]. split; [reflexivity|].
    destruct (encountered_in_root fnmatch excludes ignore_globs allowed_exts include_names
                tree_output bundle_output root_name _ _ _ _ _ _ Henc) as (B & A & E).
    rewrite E. simpl. apply in_or_app. left. apply in_or_app. right. now left.
  - intros es ->. now apply walked_root.
Qed.

End EngineMore.

Ltac nodup_by_computation :=
  apply NoDup_ListNoDup; apply (bool_decide_unpack _); vm_compute; exact I.

Lemma sample_unique_names : unique_names sample_root.
Proof.
  apply unique_entries; [nodup_by_computation|].
  intros n c Hin. vm_compute in Hin.
  repeat (destruct Hin as [Hin | Hin]; try discriminate Hin);
    try (injection Hin as <- <-); try (destruct Hin); try constructor.
  - nodup_by_computation.
  - intros n c [H | [H | []]]; discriminate.
  - nodup_by_computation.
  - intros n c [H | []]. discriminate.
Defined.

Lemma collected_without_duplicates_witness :
  unique_names sample_root /\ List.NoDup (snd (sample_build sample_root)).
Proof.
  split; [exact sample_unique_names|].
  exact (collected_without_duplicates literal_fnmatch sample_excludes ∅ sample_exts
           sample_names sample_tree_output sample_bundle_output "root" sample_root
           sample_unique_names).
Defined.

Lemma collected_are_listed_witness :
  In ["Dockerfile"] (snd (sample_build sample_root))
  /\ exists dir_rel prefix total idx p,
       encountered literal_fnmatch sample_excludes ∅ sample_tree_output
                   sample_bundle_output sample_root dir_rel prefix total idx p
       /\ ["Dockerfile"] = dir_rel ++ [name p]
       /\ In (prefix +:+ (if Nat.eqb idx (total - 1) then branch_last else branch_mid)
                     +:+ name p)
             (lines (sample_walk sample_root)).
Proof.
  assert (H : In ["Dockerfile"] (snd (sample_build sample_root)))
    by (vm_compute; right; left; reflexivity).
  split; [exact H|].
  exact (collected_are_listed literal_fnmatch sample_excludes ∅ sample_exts sample_names
           sample_tree_output sample_bundle_output "root" sample_root ["Dockerfile"] H).
Defined.

(** ** Ignore globs *)

Ltac unfold_matches := unfold matches_any_glob.
Ltac unfold_ignored := unfold ignored.

Section EngineIgnore.

Variable fnmatch : string -> string -> bool.
Variables excludes ignore_globs allowed_exts include_names : gset string.
Variables tree_output bundle_output : Path.

Local Abbreviation visible_entries :=
  (visible_entries fnmatch excludes ignore_globs tree_output bundle_output).
Local Abbreviation is_visible :=
  (is_visible fnmatch excludes ignore_globs tree_output bundle_output).
Local Abbreviation visit := (visit allowed_exts include_names).
Local Abbreviation for_visible := (for_visible allowed_exts include_names).
Local Abbreviation _walk :=
  (_walk fnmatch excludes ignore_globs allowed_exts include_names
         tree_output bundle_output).
Local Abbreviation build :=
  (build_tree_and_collect_files fnmatch excludes ignore_globs allowed_exts include_names
     tree_output bundle_output).
Local Abbreviation ignored := (ignored fnmatch ignore_globs).

Section PruneAt.
Variable hide : Path -> entry -> bool.
Hypothesis hide_invisible :
  forall dir_rel p, hide dir_rel p = true -> is_symlink p = false ->
                    is_visible dir_rel p = false.
Hypothesis hide_prune :
  forall dir_rel dir_rel' p, hide dir_rel (prune_at hide dir_rel' p) = hide dir_rel p.

Lemma prune_at_Dir dir_rel n c :
  prune_at hide dir_rel (Dir n c) = Dir n (prune_dir_at hide (dir_rel ++ [n]) c).
Proof. destruct c; reflexivity. Qed.

Lemma prune_at_is_symlink dir_rel p : is_symlink (prune_at hide dir_rel p) = is_symlink p.
Proof. destruct p as [| |n []]; reflexivity. Qed.

Lemma prune_at_sort_key dir_rel p : sort_key (prune_at hide dir_rel p) = sort_key p.
Proof. destruct p as [| |n []]; reflexivity. Qed.

Lemma prune_at_is_visible dir_rel dir_rel' p :
  is_visible dir_rel (prune_at hide dir_rel' p) = is_visible dir_rel p.
Proof. destruct p as [| |n []]; reflexivity. Qed.

Lemma visible_entries_prune_at dir_rel es :
  visible_entries dir_rel
    (List.filter (fun q => negb (hide dir_rel q)) (List.map (prune_at hide dir_rel) es))
  = List.map (prune_at hide dir_rel) (visible_entries dir_rel es).
Proof.
  unfold_visible.
  rewrite filter_comm.
  rewrite (sorted_filter _ _ key_lt_asym key_lt_negtrans).
  rewrite (filter_map_pres _ (fun p => negb (is_symlink p)))
    by (intros; now rewrite prune_at_is_symlink).
  rewrite (sorted_map sort_key) by apply prune_at_sort_key.
  rewrite filter_absorb.
  - apply filter_map_pres. intros; apply prune_at_is_visible.
  - intros q Hq Hv. apply in_map_iff in Hq as (p & <- & Hp).
    apply sorted_In, filter_In in Hp as [_ Hp]. apply negb_true_iff in Hp.
    rewrite hide_prune. rewrite prune_at_is_visible in Hv.
    destruct (hide dir_rel p) eqn:E; [|reflexivity].
    rewrite (hide_invisible dir_rel p E Hp) in Hv. discriminate.
Qed.

Lemma for_visible_prune_at dir_rel prefix total idx visible st :
  (forall n c, In (Dir n c) visible ->
               forall r p s, _walk r p (prune_dir_at hide r c) s = _walk r p c s) ->
  for_visible _walk dir_rel prefix total idx (List.map (prune_at hide dir_rel) visible) st
  = for_visible _walk dir_rel prefix total idx visible st.
Proof.
  revert idx st. induction visible as [|p rest IH]; intros idx st H; simpl; [reflexivity|].
  rewrite IH by (intros; eapply H; right; eassumption).
  f_equal. destruct p as [n t|n k|n c]; try reflexivity.
  rewrite prune_at_Dir. unfold_visit. simpl. eapply H. now left.
Qed.

Lemma _walk_prune_at d dir_rel prefix st :
  _walk dir_rel prefix (prune_dir_at hide dir_rel d) st = _walk dir_rel prefix d st.
Proof.
  revert dir_rel prefix st.
  induction d as [| |es IH] using dir_ind; intros dir_rel prefix st; try reflexivity.
  simpl. rewrite !_walk_Entries. cbv zeta.
  rewrite visible_entries_prune_at, length_map.
  apply for_visible_prune_at. intros n c Hin. apply (IH n c).
  now apply visible_entries_In in Hin.
Qed.

Lemma prune_dir_at_clean d dir_rel : clean_at hide dir_rel (prune_dir_at hide dir_rel d).
Proof.
  revert dir_rel.
  induction d as [| |es IH] using dir_ind; intros dir_rel; simpl; try constructor.
  - intros p Hp. apply filter_In in Hp as [_ Hp]. now apply negb_true_iff in Hp.
  - intros n c Hin. apply filter_In in Hin as [Hin _].
    apply in_map_iff in Hin as (q & Hq & Hin).
    destruct q as [| |n' c']; try (simpl in Hq; discriminate).
    rewrite prune_at_Dir in Hq. injection Hq as -> <-. eapply IH, Hin.
Qed.
End PruneAt.

Lemma ignored_invisible dir_rel p :
  ignored dir_rel p = true -> is_symlink p = false -> is_visible dir_rel p = false.
Proof.
  unfold_ignored. intros H Hsym. rewrite Hsym in H. simpl in H.
  unfold_is_visible. rewrite H.
  destruct (is_dir p), (bool_decide _); reflexivity.
Qed.

Lemma ignored_prune_at dir_rel dir_rel' p :
  ignored dir_rel (prune_at ignored dir_rel' p) = ignored dir_rel p.
Proof. destruct p as [| |n []]; reflexivity. Qed.

(** The paths collected below a directory: no part of them, from the
    directory down, matches an ignore glob. *)
Lemma collected_not_ignored d :
  forall dir_rel prefix q,
    In q (collected (_walk dir_rel prefix d no_output)) ->
    exists rest,
      q = dir_rel ++ rest
      /\ forall r1 r2, rest = r1 ++ r2 -> r1 <> [] ->
                       matches_any_glob fnmatch (dir_rel ++ r1) ignore_globs = false.
Proof.
  induction d as [| |es IH] using dir_ind; intros dir_rel prefix q; try (intros []).
  rewrite _walk_Entries. cbv zeta. intros H.
  apply for_visible_collected in H as [[] | (p & i & Hp & H)].
  apply visible_entries_In in Hp as (Hin & Hsym & Hvis).
  assert (Hglob : matches_any_glob fnmatch (dir_rel ++ [name p]) ignore_globs = false).
  { revert Hvis. unfold_is_visible.
    destruct (is_dir p), (bool_decide _); try discriminate;
      destruct (matches_any_glob _ _ _); congruence. }
  destruct p as [n t|n k|n c]; [discriminate| |].
  - rewrite visit_file in H by reflexivity. simpl in H.
    destruct (bundled _ _ n); [|destruct H]. destruct H as [<- | []].
    exists [n]. split; [reflexivity|]. intros r1 r2 E Hne.
    destruct r1 as [|a r1]; [congruence|]. injection E as <- E.
    destruct r1; [exact Hglob | discriminate].
  - rewrite visit_dir in H. simpl in H.
    apply (IH n c Hin) in H as (rest & -> & Hrest).
    exists (n :: rest). split; [now rewrite <- app_assoc|].
    intros r1 r2 E Hne. destruct r1 as [|a r1]; [congruence|]. injection E as <- E.
    destruct r1 as [|b r1]; [exact Hglob|].
    replace (dir_rel ++ n :: b :: r1) with ((dir_rel ++ [n]) ++ b :: r1)
      by now rewrite <- app_assoc.
    now apply (Hrest (b :: r1) r2).
Qed.

(** X10.  An entry that an ignore glob matches, by its name or by its
    path relative to the root, leaves no trace, nor does anything below it:
    the tree text and the collected list are those of the tree from which
    every such entry has been removed at every depth, and no collected
    path, nor the path of any directory above a collected file, matches an
    ignore glob. *)
Theorem ignored_entries_never_shown root_name root :
  build root_name (prune_dir_at ignored [] root) = build root_name root
  /\ clean_at ignored [] (prune_dir_at ignored [] root)
  /\ (forall q1 q2,
         In (q1 ++ q2) (snd (build root_name root)) -> q1 <> [] ->
         matches_any_glob fnmatch q1 ignore_globs = false).
Proof.
  split; [|split].
  - unfold_build. now rewrite (_walk_prune_at ignored ignored_invisible ignored_prune_at).
  - apply prune_dir_at_clean.
  - intros q1 q2. unfold_build. cbn [snd]. rewrite _walk_frame. simpl. intros H Hne.
    apply collected_not_ignored in H as (rest & E & Hrest).
    simpl in E. apply (Hrest q1 q2 (eq_sym E) Hne).
Qed.

End EngineIgnore.

Lemma ignored_entries_never_shown_witness :
  In (["src"] ++ ["guide.md"])
     (snd (build_tree_and_collect_files literal_fnmatch sample_excludes {[ "readme.md" ]}
             sample_exts sample_names sample_tree_output sample_bundle_output
             "root" sample_root))
  /\ ["src"] <> []
  /\ matches_any_glob literal_fnmatch ["src"] {[ "readme.md" ]} = false.
Proof.
  assert (H : In (["src"] ++ ["guide.md"])
                 (snd (build_tree_and_collect_files literal_fnmatch sample_excludes
                         {[ "readme.md" ]} sample_exts sample_names sample_tree_output
                         sample_bundle_output "root" sample_root)))
    by (vm_compute; left; reflexivity).
  assert (Hne : ["src"] <> ([] : Path)) by discriminate.
  split; [exact H|]. split; [exact Hne|].
  exact (proj2 (proj2 (ignored_entries_never_shown literal_fnmatch sample_excludes
                         {[ "readme.md" ]} sample_exts sample_names sample_tree_output
                         sample_bundle_output "root" sample_root))
               ["src"] ["guide.md"] H Hne).
Defined.

(** With the glob [readme.md] the file of that name is gone from the tree
    and from the bundle list. *)
Example ignored_sample :
  build_tree_and_collect_files literal_fnmatch sample_excludes {[ "readme.md" ]}
    sample_exts sample_names sample_tree_output sample_bundle_output "root" sample_root
  = (Str.join newline
       [ "root/";
         "├── gone/";
         "├── locked/";
         "│   └── [permission denied]";
         "├── sock";
         "├── src/";
         "│   └── guide.md";
         "├── Dockerfile";
         "├── script.py";
         "└── venv" ],
     [ ["src"; "guide.md"]; ["Dockerfile"]; ["venv"] ]).
Proof. by_computation. Qed.

(** ** The glob matcher *)

Section Matcher.

Variables fnmatch fnmatch' : string -> string -> bool.
Variables excludes ignore_globs allowed_exts include_names : gset string.
Variables tree_output bundle_output : Path.

Hypothesis same_on_patterns :
  forall s pat, pat ∈ ignore_globs -> fnmatch s pat = fnmatch' s pat.

Lemma matches_any_glob_ext rel :
  matches_any_glob fnmatch rel ignore_globs = matches_any_glob fnmatch' rel ignore_globs.
Proof.
  unfold_matches. destruct (bool_decide (ignore_globs = ∅)); [reflexivity|].
  assert (H : forall pat, In pat (elements ignore_globs) -> pat ∈ ignore_globs).
  { intros pat Hin. now apply elem_of_elements, list_elem_of_In. }
  induction (elements ignore_globs) as [|pat l IH]; [reflexivity|].
  simpl. rewrite !(same_on_patterns _ pat) by (apply H; now left).
  rewrite IH; [reflexivity|]. intros; apply H; now right.
Qed.

Lemma visible_entries_ext dir_rel es :
  visible_entries fnmatch excludes ignore_globs tree_output bundle_output dir_rel es
  = visible_entries fnmatch' excludes ignore_globs tree_output bundle_output dir_rel es.
Proof.
  unfold_visible. apply filter_ext. intros p.
  unfold_is_visible. now rewrite matches_any_glob_ext.
Qed.

Lemma _walk_ext d :
  forall r p s,
    _walk fnmatch excludes ignore_globs allowed_exts include_names
          tree_output bundle_output r p d s
    = _walk fnmatch' excludes ignore_globs allowed_exts include_names
            tree_output bundle_output r p d s.
Proof.
  induction d as [| |es IH] using dir_ind; intros r p s; try reflexivity.
  rewrite !_walk_Entries. cbv zeta. rewrite visible_entries_ext.
  apply for_visible_ext. intros n c Hin. apply (IH n c).
  now apply visible_entries_In in Hin.
Qed.

(** X11.  The traversal consults the glob matcher with the ignore
    patterns only: two matchers that agree on every ignore pattern give the
    same tree and the same collected list.  In particular, without ignore
    patterns the matcher plays no part. *)
Theorem matcher_used_on_patterns_only root_name root :
  build_tree_and_collect_files fnmatch excludes ignore_globs allowed_exts include_names
    tree_output bundle_output root_name root
  = build_tree_and_collect_files fnmatch' excludes ignore_globs allowed_exts include_names
      tree_output bundle_output root_name root.
Proof. unfold_build. now rewrite _walk_ext. Qed.

End Matcher.

Lemma matcher_used_on_patterns_only_witness :
  (forall s pat,
      pat ∈ ({[ "readme.md" ]} : gset string) ->
      literal_fnmatch s pat
      = (fun s pat => if String.eqb pat "readme.md" then String.eqb s pat else true) s pat)
  /\ build_tree_and_collect_files literal_fnmatch sample_excludes {[ "readme.md" ]}
       sample_exts sample_names sample_tree_output sample_bundle_output "root" sample_root
     = build_tree_and_collect_files
         (fun s pat => if String.eqb pat "readme.md" then String.eqb s pat else true)
         sample_excludes {[ "readme.md" ]} sample_exts sample_names
         sample_tree_output sample_bundle_output "root" sample_root.
Proof.
  assert (H : forall s pat,
             pat ∈ ({[ "readme.md" ]} : gset string) ->
             literal_fnmatch s pat
             = (fun s pat => if String.eqb pat "readme.md" then String.eqb s pat else true)
                 s pat).
  { intros s pat Hpat. apply elem_of_singleton in Hpat. subst pat. reflexivity. }
  split; [exact H|].
  exact (matcher_used_on_patterns_only literal_fnmatch
           (fun s pat => if String.eqb pat "readme.md" then String.eqb s pat else true)
           sample_excludes {[ "readme.md" ]} sample_exts sample_names
           sample_tree_output sample_bundle_output H "root" sample_root).
Defined.

(** ** The bundle, file by file *)

Section BundleMore.

Variable read_text : Path -> string + string.

(** X12.  Bundles compose: the bundle of a list of files followed by a
    second list is the bundle of the first followed by the bundle of the
    second.  What is written for a file does not depend on the files
    before or after it. *)
Theorem write_bundle_app l1 l2 :
  write_bundle read_text (l1 ++ l2)
  = write_bundle read_text l1 +:+ write_bundle read_text l2.
Proof.
  unfold write_bundle. rewrite fold_left_app, !fold_write_file.
  now rewrite !StrFacts.append_empty_l.
Qed.

(** X13.  A file that cannot be read does not stop the bundle: its block
    holds the header and, in place of the text, the marker with the message
    of the error, and the files before it and after it are written as they
    would be without it. *)
Theorem write_bundle_unreadable l1 rel l2 e :
  read_text rel = inr e ->
  write_bundle read_text (l1 ++ rel :: l2)
  = write_bundle read_text l1
    +:+ (newline +:+ newline
         +:+ rule +:+ newline +:+ "FILE: " +:+ as_posix rel +:+ newline +:+ rule +:+ newline
         +:+ "[ERROR READING FILE: " +:+ e +:+ "]" +:+ newline)
    +:+ write_bundle read_text l2.
Proof.
  intros He. unfold write_bundle.
  rewrite fold_left_app. cbn [fold_left]. rewrite !fold_write_file, write_file_block.
  unfold_bundle. rewrite He.
  now rewrite !StrFacts.append_empty_l, !StrFacts.append_assoc.
Qed.

End BundleMore.

Lemma write_bundle_unreadable_witness :
  sample_read_text ["locked"; "x.md"] = inr "[Errno 13] Permission denied"
  /\ write_bundle sample_read_text ([["src"; "guide.md"]] ++ ["locked"; "x.md"] :: [["readme.md"]])
     = write_bundle sample_read_text [["src"; "guide.md"]]
       +:+ (newline +:+ newline
            +:+ rule +:+ newline +:+ "FILE: " +:+ as_posix ["locked"; "x.md"] +:+ newline
            +:+ rule +:+ newline
            +:+ "[ERROR READING FILE: " +:+ "[Errno 13] Permission denied" +:+ "]" +:+ newline)
       +:+ write_bundle sample_read_text [["readme.md"]].
Proof.
  assert (H : sample_read_text ["locked"; "x.md"] = inr "[Errno 13] Permission denied")
    by reflexivity.
  split; [exact H|].
  exact (write_bundle_unreadable sample_read_text [["src"; "guide.md"]] ["locked"; "x.md"]
           [["readme.md"]] "[Errno 13] Permission denied" H).
Defined.

(** ** [main] *)

Ltac unfold_main := unfold main, main_build.

Section MainBuildFacts.

Variable fnmatch : string -> string -> bool.

Lemma main_collected_shape args root_name root q :
  In q (snd (main_build fnmatch args root_name root)) ->
  exists dirs n,
    q = dirs ++ [n]
    /\ (forall c, In c dirs -> c ∉ AUTO_EXCLUDES ∪ parse_csv_set (arg_exclude args))
    /\ (Str.lower (path_suffix n)
          ∈ (set_map Str.lower (normalized_exts (Some (arg_exts args))) : gset string)
        \/ n ∈ parse_csv_set (arg_include_names args)).
Proof.
  unfold_main. unfold_build. cbn [snd]. rewrite _walk_frame. simpl. intros H.
  apply collected_shape in H as (dirs & n & -> & Hdirs & _ & Hn).
  exists dirs, n. split; [reflexivity|]. split; [exact Hdirs|].
  now apply bundled_spec in Hn.
Qed.

(** X14.  The built-in excludes cannot be switched off: whatever the
    options are, [main] drops every directory named [.git], [.idea],
    [.venv] or [venv] with all that is below it (the tree and the collected
    list are those of the root without these directories), and no
    collected path leads through a directory of such a name. *)
Theorem main_auto_excludes args root_name root :
  main_build fnmatch args root_name (prune_dir (excluded_dir AUTO_EXCLUDES) root)
  = main_build fnmatch args root_name root
  /\ (forall q c,
         In q (snd (main_build fnmatch args root_name root)) ->
         In c (removelast q) ->
         c <> ".git" /\ c <> ".idea" /\ c <> ".venv" /\ c <> "venv").
Proof.
  split.
  - unfold_main. apply build_prune; [|apply excluded_dir_prune].
    intros p Hp _ dir_rel. destruct p as [n t|n k|n c]; try discriminate.
    simpl in Hp. apply bool_decide_eq_true in Hp.
    unfold_is_visible. cbn [is_dir name].
    rewrite bool_decide_eq_true_2; [reflexivity|]. now apply elem_of_union_l.
  - intros q c Hq Hc.
    apply main_collected_shape in Hq as (dirs & n & -> & Hdirs & _).
    rewrite removelast_last in Hc. specialize (Hdirs c Hc).
    unfold AUTO_EXCLUDES in Hdirs. set_solver.
Qed.

(** X15.  A file whose name has no extension (no dot, or only a leading or
    a trailing one, as in [Makefile] and [.gitignore]) is never bundled for
    its extension: under [main] it is in the collected list only if its
    name is among the [--include-names]. *)
Theorem main_no_extension_needs_name args root_name root q :
  In q (snd (main_build fnmatch args root_name root)) ->
  path_suffix (path_name q) = EmptyString ->
  path_name q ∈ parse_csv_set (arg_include_names args).
Proof.
  intros Hq Hs.
  apply main_collected_shape in Hq as (dirs & n & -> & _ & Hn).
  unfold path_name in *. rewrite last_last in *.
  destruct Hn as [Hn | Hn]; [|exact Hn]. exfalso.
  rewrite Hs in Hn. apply elem_of_map in Hn as (x & Hx & Hin).
  apply normalized_exts_dot, StrFacts.lower_startswith_dot in Hin.
  rewrite <- Hx in Hin. discriminate.
Qed.

End MainBuildFacts.

Section MainFacts.

Variable fnmatch : string -> string -> bool.
Variable read_text : Path -> string + string.

(** X16.  Running twice gives the same files.  Two roots that differ only
    in entries, other than directories, named like the tree output or the
    bundle output (as a root does before and after a run that writes its
    outputs into it) give the same tree text and, the files read being the
    same, the same bundle text. *)
Theorem main_rerun_same_output args root_name root root' :
  prune_dir (file_named (skip_names (arg_tree_out args) (arg_bundle_out args))) root
  = prune_dir (file_named (skip_names (arg_tree_out args) (arg_bundle_out args))) root' ->
  main fnmatch read_text args root_name root = main fnmatch read_text args root_name root'.
Proof.
  intros H. unfold_main.
  rewrite <- (build_prune _ _ _ _ _ _ _
                (file_named (skip_names (arg_tree_out args) (arg_bundle_out args)))
                root_name root
                (file_named_invisible _ _ _ _ _) (file_named_prune _)).
  rewrite <- (build_prune _ _ _ _ _ _ _
                (file_named (skip_names (arg_tree_out args) (arg_bundle_out args)))
                root_name root'
                (file_named_invisible _ _ _ _ _) (file_named_prune _)).
  now rewrite H.
Qed.

End MainFacts.

Lemma main_auto_excludes_witness :
  In ["src"; "guide.md"] (snd (main_build literal_fnmatch sample_args "root" sample_root))
  /\ In "src" (removelast ["src"; "guide.md"])
  /\ "src" <> ".git" /\ "src" <> ".idea" /\ "src" <> ".venv" /\ "src" <> "venv".
Proof.
  assert (H1 : In ["src"; "guide.md"]
                  (snd (main_build literal_fnmatch sample_args "root" sample_root)))
    by (vm_compute; left; reflexivity).
  assert (H2 : In "src" (removelast ["src"; "guide.md"])) by (vm_compute; left; reflexivity).
  split; [exact H1|]. split; [exact H2|].
  exact (proj2 (main_auto_excludes literal_fnmatch sample_args "root" sample_root)
               ["src"; "guide.md"] "src" H1 H2).
Defined.

Lemma main_no_extension_needs_name_witness :
  In ["Dockerfile"] (snd (main_build literal_fnmatch sample_args "root" sample_root))
  /\ path_suffix (path_name ["Dockerfile"]) = EmptyString
  /\ path_name ["Dockerfile"] ∈ parse_csv_set (arg_include_names sample_args).
Proof.
  assert (H1 : In ["Dockerfile"]
                  (snd (main_build literal_fnmatch sample_args "root" sample_root)))
    by (vm_compute; right; left; reflexivity).
  assert (H2 : path_suffix (path_name ["Dockerfile"]) = EmptyString) by reflexivity.
  split; [exact H1|]. split; [exact H2|].
  exact (main_no_extension_needs_name literal_fnmatch sample_args "root" sample_root
           ["Dockerfile"] H1 H2).
Defined.

Lemma main_rerun_same_output_witness :
  prune_dir (file_named (skip_names (arg_tree_out sample_args) (arg_bundle_out sample_args)))
            sample_root
  = prune_dir (file_named (skip_names (arg_tree_out sample_args) (arg_bundle_out sample_args)))
              sample_root_after
  /\ main literal_fnmatch sample_read_text sample_args "root" sample_root
     = main literal_fnmatch sample_read_text sample_args "root" sample_root_after.
Proof.
  assert (H : prune_dir (file_named (skip_names (arg_tree_out sample_args)
                                                (arg_bundle_out sample_args)))
                        sample_root
              = prune_dir (file_named (skip_names (arg_tree_out sample_args)
                                                  (arg_bundle_out sample_args)))
                          sample_root_after)
    by by_computation.
  split; [exact H|].
  exact (main_rerun_same_output literal_fnmatch sample_read_text sample_args "root"
           sample_root sample_root_after H).
Defined.

(** The two files of a run on the sample. *)
Example main_sample :
  main literal_fnmatch sample_read_text sample_args "root" sample_root
  = (Str.join newline
       [ "root/";
         "├── gone/";
         "├── locked/";
         "│   └── [permission denied]";
         "├── sock";
         "├── src/";
         "│   └── guide.md";
         "├── Dockerfile";
         "├── readme.md";
         "├── script.py";
         "└── venv" ],
     Str.join newline
       [ ""; "";
         rule; "FILE: src/guide.md"; rule; "# guide"; "";
         rule; "FILE: Dockerfile"; rule;
         "[ERROR READING FILE: [Errno 13] Permission denied]"; ""; "";
         rule; "FILE: readme.md"; rule; "# readme"; "";
         rule; "FILE: venv"; rule;
         "[ERROR READING FILE: [Errno 13] Permission denied]"; "" ]).
Proof. by_computation. Qed.

(** ** The shape of the tree lines *)

Section TreeLines.

Variable fnmatch : string -> string -> bool.
Variables excludes ignore_globs allowed_exts include_names : gset string.
Variables tree_output bundle_output : Path.

Local Abbreviation visit := (visit allowed_exts include_names).
Local Abbreviation for_visible := (for_visible allowed_exts include_names).
Local Abbreviation _walk :=
  (_walk fnmatch excludes ignore_globs allowed_exts include_names
         tree_output bundle_output).

Lemma for_visible_lines dir_rel prefix total idx visible st line :
  In line (lines (for_visible _walk dir_rel prefix total idx visible st)) ->
  In line (lines st)
  \/ exists p i, In p visible
                 /\ In line (lines (visit _walk dir_rel prefix total i p no_output)).
Proof.
  revert idx st. induction visible as [|p rest IH]; intros idx st; simpl; [now left|].
  intros H. apply IH in H as [H | (p' & i & Hp' & H)].
  - rewrite visit_frame in H. simpl in H. apply in_app_or in H as [H | H]; [now left|].
    right. exists p, idx. split; [now left | exact H].
  - right. exists p', i. split; [now right | exact H].
Qed.

(** X18.  Every line that the traversal of a directory puts out starts
    with the prefix of that directory followed by one of the four
    connectors: the lines of a subtree are indented below the line of its
    directory. *)
Theorem tree_lines_indented d dir_rel prefix line :
  In line (lines (_walk dir_rel prefix d no_output)) ->
  exists connector rest,
    line = prefix +:+ connector +:+ rest
    /\ In connector [branch_mid; branch_last; indent_mid; indent_last].
Proof.
  revert dir_rel prefix line.
  induction d as [| |es IH] using dir_ind; intros dir_rel prefix line.
  - rewrite _walk_PermissionError. simpl. intros [<- | []].
    exists branch_last, "[permission denied]". split; [reflexivity|]. right. now left.
  - intros [].
  - rewrite _walk_Entries. cbv zeta. intros H.
    apply for_visible_lines in H as [[] | (p & i & Hp & H)].
    apply visible_entries_In in Hp as (Hin & Hsym & _).
    destruct p as [n t|n k|n c]; [discriminate| |].
    + rewrite visit_file in H by reflexivity. simpl in H. destruct H as [<- | []].
      eexists. exists n. split; [reflexivity|].
      destruct (Nat.eqb i _); [right; now left | now left].
    + rewrite visit_dir in H. simpl in H. destruct H as [<- | H].
      * eexists. exists (n +:+ "/"). split; [reflexivity|].
        destruct (Nat.eqb i _); [right; now left | now left].
      * apply (IH n c Hin) in H as (connector & rest & -> & _).
        eexists. exists (connector +:+ rest). split.
        -- now rewrite StrFacts.append_assoc.
        -- destruct (Nat.eqb i _); [do 3 right; now left | do 2 right; now left].
Qed.

End TreeLines.

Lemma tree_lines_indented_witness :
  In "│   └── guide.md"
     (lines (_walk literal_fnmatch sample_excludes ∅ sample_exts sample_names
                   sample_tree_output sample_bundle_output
                   ["src"] "│   " (Entries [File "guide.md" true; File "tree.txt" true])
                   no_output))
  /\ exists connector rest,
       "│   └── guide.md" = "│   " +:+ connector +:+ rest
       /\ In connector [branch_mid; branch_last; indent_mid; indent_last].
Proof.
  assert (H : In "│   └── guide.md"
                 (lines (_walk literal_fnmatch sample_excludes ∅ sample_exts sample_names
                               sample_tree_output sample_bundle_output
                               ["src"] "│   "
                               (Entries [File "guide.md" true; File "tree.txt" true])
                               no_output)))
    by (vm_compute; left; reflexivity).
  split; [exact H|].
  exact (tree_lines_indented literal_fnmatch sample_excludes ∅ sample_exts sample_names
           sample_tree_output sample_bundle_output _ _ _ _ H).
Defined.

